(** * The model loader of the tender summarizer: configuration resolution
      and download-if-absent fetch

    Shallow embedding of [src/summarizer/model/model_loader.py].

    The Python functions [read_config], [build_service_principal],
    [download_model_from_workspace], [fetch_model] and [load_model_names]
    are embedded as computations in a state-and-exception monad over a
    world made of the local filesystem, the process environment and the
    log of calls made to the external collaborators (the Azure ML
    workspace and the model/tokenizer loader).

    The library functions the module calls ([os.path.join], [os.path.exists],
    [open], [pathlib.Path.mkdir], [json.dump], [json.load]) are modelled
    next to it, each where it is first needed. *)

From Stdlib Require Import ZArith Ascii.
From stdpp Require Import gmap strings list pretty.

Set Warnings "-register-all".

(** ** Python values and exceptions *)

(** The values [json.load] can produce, which are also the values a
    configuration may hold.  A [dict] keeps its insertion order, as in
    Python, and so is an association list.  Characters are those of
    [ascii] (code points 0 to 255).  A float is kept as the text of its
    literal: the module never computes with numbers. *)
Inductive pyval : Type :=
| PNone
| PBool (b : bool)
| PInt (z : Z)
| PFloat (lexeme : string)
| PStr (s : string)
| PList (l : list pyval)
| PDict (d : list (string * pyval)).

(** The exceptions of Python the module can meet.  [OutsideModel] is not
    one of them: it is how a run ends that needs a value the model does
    not have (a string with a character above code point 255), and it
    says nothing of what the program does then. *)
Inductive exn : Type :=
| KeyError (key : string)
| TypeError
| AttributeError
| JSONDecodeError
| FileNotFoundError
| FileExistsError
| NotADirectoryError
| IsADirectoryError
| CollaboratorError (what : string)
| OutsideModel.

Inductive result (A : Type) : Type :=
| Ok (a : A)
| Raise (e : exn).
Arguments Ok {A} a.
Arguments Raise {A} e.

Definition is_ok {A} (r : result A) : bool :=
  match r with Ok _ => true | Raise _ => false end.

(** [d.get(k)] of a dict as an association list. *)
Fixpoint assoc_get (k : string) (d : list (string * pyval)) : option pyval :=
  match d with
  | [] => None
  | (k', v) :: d' => if String.eqb k k' then Some v else assoc_get k d'
  end.

(** [d[k] = v]: an existing key keeps its position, a new key goes last. *)
Fixpoint assoc_set (k : string) (v : pyval) (d : list (string * pyval))
  : list (string * pyval) :=
  match d with
  | [] => [(k, v)]
  | (k', v') :: d' =>
      if String.eqb k k' then (k, v) :: d' else (k', v') :: assoc_set k v d'
  end.

(** [cfg.get(key)]: only a dict has the method; a missing key gives [None]. *)
Definition py_get (cfg : pyval) (key : string) : result pyval :=
  match cfg with
  | PDict d => Ok (default PNone (assoc_get key d))
  | _ => Raise AttributeError
  end.

(** [cfg[key]] with a string key. *)
Definition py_getitem (cfg : pyval) (key : string) : result pyval :=
  match cfg with
  | PDict d =>
      match assoc_get key d with
      | Some v => Ok v
      | None => Raise (KeyError key)
      end
  | _ => Raise TypeError
  end.

(** Characters by their code point. *)
Definition ord (c : ascii) : nat := nat_of_ascii c.
Definition chr (n : nat) : ascii := ascii_of_nat n.
Definition str1 (c : ascii) : string := String c EmptyString.

(** ** [os.path.join] (posixpath) *)

Definition startswith_sep (s : string) : bool :=
  match s with
  | String c _ => ord c =? 47
  | EmptyString => false
  end.

Fixpoint endswith_sep (s : string) : bool :=
  match s with
  | EmptyString => false
  | String c EmptyString => ord c =? 47
  | String _ s' => endswith_sep s'
  end.

(** One round of the loop of [posixpath.join]. *)
Definition join_step (path b : string) : string :=
  if startswith_sep b then b
  else if String.eqb path EmptyString || endswith_sep path then path +:+ b
  else path +:+ "/" +:+ b.

Definition posix_join (a : string) (p : list string) : string :=
  fold_left join_step p a.

Definition as_str (v : pyval) : result string :=
  match v with
  | PStr s => Ok s
  | _ => Raise TypeError
  end.

Fixpoint as_strs (vs : list pyval) : result (list string) :=
  match vs with
  | [] => Ok []
  | v :: vs' =>
      match as_str v with
      | Raise e => Raise e
      | Ok s =>
          match as_strs vs' with
          | Raise e => Raise e
          | Ok ss => Ok (s :: ss)
          end
      end
  end.

(** [path.join(a, *p)] on Python values: a component that is not a [str]
    raises [TypeError]. *)
Definition path_join (a : pyval) (p : list pyval) : result string :=
  match as_str a with
  | Raise e => Raise e
  | Ok a' =>
      match as_strs p with
      | Raise e => Raise e
      | Ok p' => Ok (posix_join a' p')
      end
  end.


(** ** [json.dump] and [json.load] *)

Definition quote : string := str1 (chr 34).
Definition backslash : string := str1 (chr 92).

Definition hex_digit (n : nat) : ascii :=
  if n <? 10 then chr (48 + n) else chr (87 + n).

Definition hex_value (c : ascii) : option nat :=
  let n := ord c in
  if (48 <=? n) && (n <=? 57) then Some (n - 48)
  else if (97 <=? n) && (n <=? 102) then Some (n - 87)
  else if (65 <=? n) && (n <=? 70) then Some (n - 55)
  else None.

(** The replacement of one character by [encode_basestring_ascii]:
    the quote and the backslash get a backslash, the five control
    characters of [ESCAPE_DCT] their letter, every other character outside
    space..tilde the form backslash, u, four hexadecimal digits, and the
    rest stays. *)
Definition escape_char (c : ascii) : string :=
  let n := ord c in
  if n =? 34 then backslash +:+ quote
  else if n =? 92 then backslash +:+ backslash
  else if n =? 8 then backslash +:+ "b"
  else if n =? 12 then backslash +:+ "f"
  else if n =? 10 then backslash +:+ "n"
  else if n =? 13 then backslash +:+ "r"
  else if n =? 9 then backslash +:+ "t"
  else if (32 <=? n) && (n <=? 126) then str1 c
  else backslash +:+ "u00"
         +:+ str1 (hex_digit (n / 16)) +:+ str1 (hex_digit (n mod 16)).

Fixpoint escape (s : string) : string :=
  match s with
  | EmptyString => EmptyString
  | String c s' => escape_char c +:+ escape s'
  end.

Definition encode_basestring_ascii (s : string) : string :=
  quote +:+ escape s +:+ quote.

(** [json.dumps] with the default separators, a comma and a colon each
    followed by a space. *)
Fixpoint json_dumps (v : pyval) : string :=
  match v with
  | PNone => "null"
  | PBool true => "true"
  | PBool false => "false"
  | PInt z => pretty z
  | PFloat lexeme => lexeme
  | PStr s => encode_basestring_ascii s
  | PList l =>
      "[" +:+
      (fix items (l : list pyval) : string :=
         match l with
         | [] => EmptyString
         | [x] => json_dumps x
         | x :: l' => json_dumps x +:+ ", " +:+ items l'
         end) l +:+ "]"
  | PDict d =>
      "{" +:+
      (fix items (d : list (string * pyval)) : string :=
         match d with
         | [] => EmptyString
         | [(k, x)] => encode_basestring_ascii k +:+ ": " +:+ json_dumps x
         | (k, x) :: d' =>
             encode_basestring_ascii k +:+ ": " +:+ json_dumps x
               +:+ ", " +:+ items d'
         end) d +:+ "}"
  end.

(** The decoder.  [BACKSLASH] of [json.decoder]: *)
Definition unescape (e : ascii) : option ascii :=
  let n := ord e in
  if n =? 34 then Some (chr 34)
  else if n =? 92 then Some (chr 92)
  else if n =? 47 then Some (chr 47)
  else if n =? 98 then Some (chr 8)
  else if n =? 102 then Some (chr 12)
  else if n =? 110 then Some (chr 10)
  else if n =? 114 then Some (chr 13)
  else if n =? 116 then Some (chr 9)
  else None.

Definition hex4 (a b c d : ascii) : option nat :=
  match hex_value a, hex_value b, hex_value c, hex_value d with
  | Some x, Some y, Some z, Some w => Some (((x * 16 + y) * 16 + z) * 16 + w)
  | _, _, _, _ => None
  end.

Definition cons_char (c : ascii) (r : option (string * string))
  : option (string * string) :=
  match r with
  | Some (s, rest) => Some (String c s, rest)
  | None => None
  end.

(** [scanstring], strict, from just after the opening quote: the decoded
    string and the text after the closing quote.  [None] is for a string
    that is malformed, and also for one with a u-escape above [00ff]
    (a surrogate pair included), which [json] decodes to a character that
    [ascii] does not have; [json_loads] tells the two apart. *)
Fixpoint scanstring (s : string) : option (string * string) :=
  match s with
  | EmptyString => None
  | String c rest =>
      if ord c =? 34 then Some (EmptyString, rest)
      else if ord c =? 92 then
        match rest with
        | EmptyString => None
        | String e rest1 =>
            if ord e =? 117 then
              match rest1 with
              | String h1 (String h2 (String h3 (String h4 rest2))) =>
                  match hex4 h1 h2 h3 h4 with
                  | Some n =>
                      if n <? 256 then cons_char (chr n) (scanstring rest2)
                      else None
                  | None => None
                  end
              | _ => None
              end
            else
              match unescape e with
              | Some ch => cons_char ch (scanstring rest1)
              | None => None
              end
        end
      else if ord c <? 32 then None
      else cons_char c (scanstring rest)
  end.

Definition is_ws (c : ascii) : bool :=
  let n := ord c in (n =? 32) || (n =? 9) || (n =? 10) || (n =? 13).

Fixpoint skip_ws (s : string) : string :=
  match s with
  | String c rest => if is_ws c then skip_ws rest else s
  | EmptyString => EmptyString
  end.

Fixpoint strip_prefix (p s : string) : option string :=
  match p, s with
  | EmptyString, _ => Some s
  | String a p', String b s' =>
      if ord a =? ord b then strip_prefix p' s' else None
  | String _ _, EmptyString => None
  end.

Definition is_digit (c : ascii) : bool := (48 <=? ord c) && (ord c <=? 57).

(** The longest prefix of decimal digits, and the rest. *)
Fixpoint span_digits (s : string) : string * string :=
  match s with
  | String c rest =>
      if is_digit c then
        let (ds, r) := span_digits rest in (String c ds, r)
      else (EmptyString, s)
  | EmptyString => (EmptyString, EmptyString)
  end.

Fixpoint digits_value (acc : Z) (ds : string) : Z :=
  match ds with
  | EmptyString => acc
  | String c ds' => digits_value (acc * 10 + Z.of_nat (ord c - 48)) ds'
  end.

(** The optional fraction of a number: a dot and at least one digit. *)
Definition opt_frac (s : string) : string * string :=
  match s with
  | String dot r =>
      if ord dot =? 46 then
        match span_digits r with
        | (EmptyString, _) => (EmptyString, s)
        | (fd, r') => (String dot fd, r')
        end
      else (EmptyString, s)
  | EmptyString => (EmptyString, s)
  end.

(** The optional exponent: [e] or [E], an optional sign, at least one
    digit. *)
Definition opt_exp (s : string) : string * string :=
  match s with
  | String e r =>
      if (ord e =? 101) || (ord e =? 69) then
        let '(sign, r') :=
          match r with
          | String sg t =>
              if (ord sg =? 43) || (ord sg =? 45) then (str1 sg, t)
              else (EmptyString, r)
          | EmptyString => (EmptyString, r)
          end in
        match span_digits r' with
        | (EmptyString, _) => (EmptyString, s)
        | (ed, r'') => (String e (sign +:+ ed), r'')
        end
      else (EmptyString, s)
  | EmptyString => (EmptyString, s)
  end.

(** The digits of a number, after its sign: 0 or a digit string not
    starting with 0, then an optional fraction and an optional exponent.
    Without fraction and exponent the literal is an [int]. *)
Definition match_unsigned (neg : bool) (s : string) : option (pyval * string) :=
  match s with
  | EmptyString => None
  | String d r =>
      if is_digit d then
        let '(int_part, r1) :=
          if ord d =? 48 then (str1 d, r) else span_digits s in
        let '(frac, r2) := opt_frac r1 in
        let '(expo, r3) := opt_exp r2 in
        match frac, expo with
        | EmptyString, EmptyString =>
            let z := digits_value 0 int_part in
            Some (PInt (if neg then (- z)%Z else z), r3)
        | _, _ =>
            Some (PFloat ((if neg then "-" else EmptyString)
                            +:+ int_part +:+ frac +:+ expo), r3)
        end
      else None
  end.

(** [NUMBER_RE]: an optional minus, then the digits. *)
Definition match_number (s : string) : option (pyval * string) :=
  match s with
  | String c r =>
      if ord c =? 45 then match_unsigned true r else match_unsigned false s
  | EmptyString => None
  end.

(** The literals [scan_once] knows, in the order it tries them. *)
Definition match_constant (s : string) : option (pyval * string) :=
  match strip_prefix "null" s with
  | Some r => Some (PNone, r)
  | None =>
  match strip_prefix "true" s with
  | Some r => Some (PBool true, r)
  | None =>
  match strip_prefix "false" s with
  | Some r => Some (PBool false, r)
  | None =>
  match match_number s with
  | Some res => Some res
  | None =>
  match strip_prefix "NaN" s with
  | Some r => Some (PFloat "NaN", r)
  | None =>
  match strip_prefix "Infinity" s with
  | Some r => Some (PFloat "Infinity", r)
  | None =>
  match strip_prefix "-Infinity" s with
  | Some r => Some (PFloat "-Infinity", r)
  | None => None
  end end end end end end end.

(** [scan_once] with [JSONObject] and [JSONArray].  The recursion of the
    scanner follows the nesting of the text; [fuel] bounds it, and the
    length of the text plus one is always enough, every call having read
    a character before it recurses.
    [object_items] starts just after the quote that opens a key and
    carries the dict built so far ([dict(pairs)], built pair by pair);
    [array_items] starts at a value. *)
Fixpoint scan_once (fuel : nat) (s : string) : option (pyval * string) :=
  match fuel with
  | 0 => None
  | S fuel' =>
      match s with
      | EmptyString => None
      | String c rest =>
          if ord c =? 34 then
            match scanstring rest with
            | Some (str, r) => Some (PStr str, r)
            | None => None
            end
          else if ord c =? 123 then
            match skip_ws rest with
            | String c1 r1 =>
                if ord c1 =? 125 then Some (PDict [], r1)
                else if ord c1 =? 34 then object_items fuel' [] r1
                else None
            | EmptyString => None
            end
          else if ord c =? 91 then
            match skip_ws rest with
            | String c1 r1 =>
                if ord c1 =? 93 then Some (PList [], r1)
                else array_items fuel' [] (String c1 r1)
            | EmptyString => None
            end
          else match_constant s
      end
  end
with object_items (fuel : nat) (acc : list (string * pyval)) (s : string)
  : option (pyval * string) :=
  match fuel with
  | 0 => None
  | S fuel' =>
      match scanstring s with
      | None => None
      | Some (key, r) =>
          match skip_ws r with
          | String colon r1 =>
              if ord colon =? 58 then
                match scan_once fuel' (skip_ws r1) with
                | None => None
                | Some (v, r2) =>
                    let acc' := assoc_set key v acc in
                    match skip_ws r2 with
                    | String c r3 =>
                        if ord c =? 125 then Some (PDict acc', r3)
                        else if ord c =? 44 then
                          match skip_ws r3 with
                          | String q r4 =>
                              if ord q =? 34 then object_items fuel' acc' r4
                              else None
                          | EmptyString => None
                          end
                        else None
                    | EmptyString => None
                    end
                end
              else None
          | EmptyString => None
          end
      end
  end
with array_items (fuel : nat) (acc : list pyval) (s : string)
  : option (pyval * string) :=
  match fuel with
  | 0 => None
  | S fuel' =>
      match scan_once fuel' s with
      | None => None
      | Some (v, r) =>
          match skip_ws r with
          | String c r1 =>
              if ord c =? 93 then Some (PList (acc ++ [v]), r1)
              else if ord c =? 44 then
                array_items fuel' (acc ++ [v]) (skip_ws r1)
              else None
          | EmptyString => None
          end
      end
  end.

(** A backslash, [u] and four hexadecimal digits that name a code point
    above 255, at the head of [s]. *)
Definition starts_wide (s : string) : bool :=
  match s with
  | String b (String u (String h1 (String h2 (String h3 (String h4 _))))) =>
      (ord b =? 92) && (ord u =? 117) &&
      match hex4 h1 h2 h3 h4 with
      | Some n => negb (n <? 256)
      | None => false
      end
  | _ => false
  end.

(** Whether such an escape stands anywhere in the text.  The scanner
    only ever reads the text it is given, so without one it has not met
    a character it cannot hold, and what it refuses, [json] refuses. *)
Fixpoint wide_escape (s : string) : bool :=
  starts_wide s ||
  match s with
  | String _ rest => wide_escape rest
  | EmptyString => false
  end.

(** [json.loads]: one value, white space around it, nothing after.  A
    value followed by more text is refused ([Extra data]).  A text the
    scanner gives no value for is refused with [JSONDecodeError] when it
    has no wide escape; when it has one the run leaves the model. *)
Definition json_loads (s : string) : result pyval :=
  let s0 := skip_ws s in
  match scan_once (S (String.length s0)) s0 with
  | Some (v, r) =>
      match skip_ws r with
      | EmptyString => Ok v
      | String _ _ => Raise JSONDecodeError
      end
  | None =>
      if wide_escape s then Raise OutsideModel else Raise JSONDecodeError
  end.

(** ** The local filesystem *)

(** What a path names: a regular file with its text, or a directory. *)
Inductive node : Type :=
| File (content : string)
| Dir.

(** The filesystem maps the absolute location of every entry, the list of
    names from the root, to its node.  The root [[]] is always a
    directory.  An entry is reachable when every proper prefix of its
    location is a directory; lookups go through [walk], which checks it. *)
Abbreviation fsmap := (gmap (list string) node).

Definition node_at (fs : fsmap) (k : list string) : option node :=
  match k with
  | [] => Some Dir
  | _ :: _ => fs !! k
  end.

Definition is_dir (fs : fsmap) (k : list string) : bool :=
  match node_at fs k with
  | Some Dir => true
  | _ => false
  end.

(** [str.split('/')]. *)
Fixpoint split_sep (s : string) : list string :=
  match s with
  | EmptyString => [EmptyString]
  | String c rest =>
      if ord c =? 47 then EmptyString :: split_sep rest
      else match split_sep rest with
           | x :: xs => String c x :: xs
           | [] => [str1 c]
           end
  end.

Definition is_dot (c : string) : bool :=
  String.eqb c EmptyString || String.eqb c ".".

Definition is_dotdot (c : string) : bool := String.eqb c "..".

(** Path resolution, one component at a time: the directory reached so
    far must be a directory to go on; an empty component and [.] stay,
    [..] goes up (the root is its own parent), a name goes down. *)
Fixpoint walk (fs : fsmap) (cur : list string) (comps : list string)
  : result (list string) :=
  match comps with
  | [] => Ok cur
  | c :: cs =>
      match node_at fs cur with
      | None => Raise FileNotFoundError
      | Some (File _) => Raise NotADirectoryError
      | Some Dir =>
          if is_dot c then walk fs cur cs
          else if is_dotdot c then walk fs (removelast cur) cs
          else walk fs (cur ++ [c]) cs
      end
  end.

(** Where resolution of the path [p] starts for a process whose working
    directory is [cwd]. *)
Definition start (cwd : list string) (p : string) : list string :=
  if startswith_sep p then [] else cwd.

(** [os.stat(p)], as far as the kind of the node and its text. *)
Definition stat (fs : fsmap) (cwd : list string) (p : string) : result node :=
  match p with
  | EmptyString => Raise FileNotFoundError
  | String _ _ =>
      match walk fs (start cwd p) (split_sep p) with
      | Raise e => Raise e
      | Ok k =>
          match node_at fs k with
          | Some n => Ok n
          | None => Raise FileNotFoundError
          end
      end
  end.

(** [os.path.exists(p)]: [False] whenever [os.stat] fails. *)
Definition os_path_exists (fs : fsmap) (cwd : list string) (p : string) : bool :=
  is_ok (stat fs cwd p).

(** [open(p, 'r').read()]. *)
Definition read_file (fs : fsmap) (cwd : list string) (p : string)
  : result string :=
  match stat fs cwd p with
  | Raise e => Raise e
  | Ok (File content) => Ok content
  | Ok Dir => Raise IsADirectoryError
  end.

(** The directory holding the last component of a path, and that
    component. *)
Definition resolve_parent (fs : fsmap) (from : list string)
    (comps : list string) : result (list string * string) :=
  match walk fs from (removelast comps) with
  | Raise e => Raise e
  | Ok k =>
      match node_at fs k with
      | None => Raise FileNotFoundError
      | Some (File _) => Raise NotADirectoryError
      | Some Dir => Ok (k, List.last comps EmptyString)
      end
  end.

(** [open(p, 'w')], the write of [content] and the close: the file is
    created or replaced in an existing directory. *)
Definition write_file (fs : fsmap) (cwd : list string) (p : string)
    (content : string) : result fsmap :=
  match p with
  | EmptyString => Raise FileNotFoundError
  | String _ _ =>
      match resolve_parent fs (start cwd p) (split_sep p) with
      | Raise e => Raise e
      | Ok (k, name) =>
          if is_dot name || is_dotdot name then Raise IsADirectoryError
          else
            match fs !! (k ++ [name]) with
            | Some Dir => Raise IsADirectoryError
            | _ => Ok (<[k ++ [name] := File content]> fs)
            end
      end
  end.

(** A directory is created empty: whatever the map held below the new
    location was unreachable and is forgotten. *)
Definition fresh_dir (fs : fsmap) (k : list string) : fsmap :=
  <[k := Dir]> (filter (λ kv, ¬ k `prefix_of` kv.1) fs).

(** [os.mkdir] of the path made of [parts], resolved from [from]. *)
Definition os_mkdir (fs : fsmap) (from : list string) (parts : list string)
  : result fsmap :=
  match parts with
  | [] => Raise FileExistsError
  | _ :: _ =>
      match resolve_parent fs from parts with
      | Raise e => Raise e
      | Ok (k, name) =>
          if is_dotdot name then Raise FileExistsError
          else
            match fs !! (k ++ [name]) with
            | Some _ => Raise FileExistsError
            | None => Ok (fresh_dir fs (k ++ [name]))
            end
      end
  end.

(** The parts of [pathlib.Path(p)]: empty components and [.] are dropped,
    [..] is kept. *)
Definition Path_parts (p : string) : list string :=
  List.filter (λ c, negb (is_dot c)) (split_sep p).

(** [Path.is_dir()]. *)
Definition Path_is_dir (fs : fsmap) (from : list string) (parts : list string)
  : bool :=
  match walk fs from parts with
  | Ok k => is_dir fs k
  | Raise _ => false
  end.

(** [Path.mkdir(parents=True, exist_ok=exist_ok)], on the parts of the
    path last first, so that [Path.parent] is the tail: [os.mkdir] is
    tried; on [FileNotFoundError] the parent is made (with
    [exist_ok=True]) and [os.mkdir] is tried again without [parents];
    any other [OSError] is passed on unless [exist_ok] holds and the path
    is a directory.  The result comes with the filesystem reached: a call
    that raises keeps the parents it has made before. *)
Fixpoint Path_mkdir_parents (fs : fsmap) (from : list string)
    (rparts : list string) (exist_ok : bool) : result unit * fsmap :=
  let tolerate (fs0 : fsmap) (e : exn) : result unit * fsmap :=
    if exist_ok && Path_is_dir fs0 from (rev rparts) then (Ok tt, fs0)
    else (Raise e, fs0) in
  match os_mkdir fs from (rev rparts) with
  | Ok fs' => (Ok tt, fs')
  | Raise FileNotFoundError =>
      match rparts with
      | [] => (Raise FileNotFoundError, fs)
      | _ :: rparent =>
          match Path_mkdir_parents fs from rparent true with
          | (Raise e, fs1) => (Raise e, fs1)
          | (Ok _, fs1) =>
              match os_mkdir fs1 from (rev rparts) with
              | Ok fs2 => (Ok tt, fs2)
              | Raise FileNotFoundError => (Raise FileNotFoundError, fs1)
              | Raise e => tolerate fs1 e
              end
          end
      end
  | Raise e => tolerate fs e
  end.

(** [pathlib.Path(p).mkdir(parents=True)]. *)
Definition mkdir_parents (fs : fsmap) (cwd : list string) (p : string)
  : result unit * fsmap :=
  Path_mkdir_parents fs (start cwd p) (rev (Path_parts p)) false.

(** ** The external collaborators *)

(** [ServicePrincipalAuthentication]: the three values handed to its
    constructor, each what [os.environ.get] gave. *)
Record credentials : Type := {
  tenant_id : option string;
  service_principal_id : option string;
  service_principal_password : option string
}.

(** A workspace handle and a registered model, as far as the module reads
    them: their names, and the version of a model. *)
Record workspace : Type := { ws_name : string }.
Record aml_model : Type := { m_name : string; m_version : Z }.

Inductive device : Type := cuda0 | cpu.

Inductive pretrained_class : Type :=
| LEDForConditionalGeneration
| LEDTokenizer.

(** A loaded model or tokenizer: the directory it was loaded from, and for
    a model the device it sits on. *)
Record led_model : Type := { model_dir : string; model_device : device }.
Record led_tokenizer : Type := { tokenizer_dir : string }.

(** What the services outside the module answer.  Nothing is assumed of
    them: each may raise, and a download changes the filesystem as it
    likes, whether it returns or raises (a transfer that is interrupted
    may leave a part of the directory). *)
Record collaborators : Type := {
  cuda_is_available : bool;
  Workspace_get :
    pyval → pyval → pyval → credentials → result workspace;
  Model_init : workspace → pyval → pyval → result aml_model;
  Model_download :
    aml_model → string → bool → fsmap → list string → result string * fsmap;
  Model_list : workspace → result (list aml_model);
  from_pretrained :
    pretrained_class → fsmap → list string → string → option exn
}.

(** The calls made to the collaborators, in the order made. *)
Inductive call : Type :=
| CallWorkspaceGet (subscription_id resource_group name : pyval)
    (auth : credentials)
| CallModelInit (ws : workspace) (name version : pyval)
| CallModelDownload (m : aml_model) (target_dir : string) (exist_ok : bool)
| CallModelList (ws : workspace)
| CallFromPretrained (cls : pretrained_class) (path : string).

(** The calls that go to the remote workspace. *)
Definition is_remote (c : call) : bool :=
  match c with
  | CallFromPretrained _ _ => false
  | _ => true
  end.

(** ** The world and the monad of the module's functions *)

Record world : Type := {
  fs : fsmap;
  cwd : list string;
  environ : gmap string string;
  calls : list call
}.

Definition set_fs (w : world) (fs' : fsmap) : world :=
  {| fs := fs'; cwd := cwd w; environ := environ w; calls := calls w |}.

Definition log_call (w : world) (c : call) : world :=
  {| fs := fs w; cwd := cwd w; environ := environ w; calls := calls w ++ [c] |}.

(** A computation runs in a world and ends with a value or an exception,
    in the world it has reached by then. *)
Definition M (A : Type) : Type := world → result A * world.

#[global] Instance M_ret : MRet M := λ A a w, (Ok a, w).

#[global] Instance M_bind : MBind M := λ A B k m w,
  match m w with
  | (Ok a, w') => k a w'
  | (Raise e, w') => (Raise e, w')
  end.

Definition lift {A} (r : result A) : M A := λ w, (r, w).

Definition path_exists (p : string) : M bool :=
  λ w, (Ok (os_path_exists (fs w) (cwd w) p), w).

Definition open_read (p : string) : M string :=
  λ w, (read_file (fs w) (cwd w) p, w).

Definition open_write (p content : string) : M unit :=
  λ w, match write_file (fs w) (cwd w) p content with
       | Ok fs' => (Ok tt, set_fs w fs')
       | Raise e => (Raise e, w)
       end.

Definition Path_mkdir (p : string) : M unit :=
  λ w, let '(r, fs') := mkdir_parents (fs w) (cwd w) p in (r, set_fs w fs').

Definition os_environ_get (var : string) : M (option string) :=
  λ w, (Ok (environ w !! var), w).

(** A call to a collaborator is logged, then answered. *)
Definition call_out {A} (c : call) (answer : world → result A) : M A :=
  λ w, (answer w, log_call w c).

(** ** The module *)

Definition MODEL_LOADER_CONFIG_JSON : string := "model_loader_config.json".
Definition CACHE : string := "cache".

Definition default_model_name : string := "led-large-16384-arxiv".
Definition default_subscription : string :=
  "091ac194-317f-4880-9f66-a9c23f42cb60".
Definition default_resource_group : string := "dev".
Definition default_ml_workspace : string := "ecb-dev".
Definition default_model_version : string := "None".

(** [os.environ.get(var) if os.environ.get(var) else dflt]: a string is
    true when it is not empty, [None] is false. *)
Definition env_or (env : gmap string string) (var dflt : string) : string :=
  match env !! var with
  | Some (String c v) => String c v
  | Some EmptyString => dflt
  | None => dflt
  end.

(** A configuration record: the five fields, each a string. *)
Definition record (name subscription resource_group ws version : string)
  : pyval :=
  PDict [ ("model_name", PStr name);
          ("subscription", PStr subscription);
          ("resource_group", PStr resource_group);
          ("workspace", PStr ws);
          ("model_version", PStr version) ].

(** The dict literal of [read_config]. *)
Definition config_from_env (env : gmap string string) : pyval :=
  record (env_or env "MODEL_NAME" default_model_name)
         (env_or env "SUBSCRIPTION" default_subscription)
         (env_or env "RESOURCE_GROUP" default_resource_group)
         (env_or env "ML_WORKSPACE" default_ml_workspace)
         (env_or env "MODEL_VERSION" default_model_version).

Definition config_of_environ : M pyval :=
  λ w, (Ok (config_from_env (environ w)), w).

Section Loader.

Variable azure : collaborators.

Definition my_device : device :=
  if cuda_is_available azure then cuda0 else cpu.

(** [aml_model.download(target_dir=target_dir, exist_ok=exist_ok)]: the
    call is logged; its answer is a path or an exception, with the
    filesystem the transfer has left. *)
Definition download (m : aml_model) (target_dir : string) (exist_ok : bool)
  : M string :=
  λ w,
    let w' := log_call w (CallModelDownload m target_dir exist_ok) in
    let '(r, fs') :=
      Model_download azure m target_dir exist_ok (fs w) (cwd w) in
    (r, set_fs w' fs').

(** [read_config(base_dir)]. *)
Definition read_config (base_dir : string) : M pyval :=
  let config_file := posix_join base_dir [MODEL_LOADER_CONFIG_JSON] in
  found ← path_exists config_file;
  cfg ← (if (found : bool) then
            text ← open_read config_file;
            lift (json_loads text)
          else mret PNone);
  match cfg with
  | PNone =>
      cfg ← config_of_environ;
      base_found ← path_exists base_dir;
      (if negb (base_found : bool) then Path_mkdir base_dir else mret tt);;
      open_write config_file (json_dumps cfg);;
      mret cfg
  | _ => mret cfg
  end.

(** [build_service_principal()]. *)
Definition build_service_principal : M credentials :=
  t ← os_environ_get "TENANT_ID";
  i ← os_environ_get "CLIENT_ID";
  s ← os_environ_get "CLIENT_SECRET";
  mret {| tenant_id := t;
         service_principal_id := i;
         service_principal_password := s |}.

(** [download_model_from_workspace(workspace, model_name, target_dir,
    model_version)]. *)
Definition download_model_from_workspace (ws : workspace) (model_name : pyval)
    (target_dir : string) (model_version : pyval) : M string :=
  aml_model ← call_out (CallModelInit ws model_name model_version)
                 (λ _, Model_init azure ws model_name model_version);
  model_path ← download aml_model target_dir true;
  mret model_path.

(** [Workspace.get(subscription_id=cfg.get('subscription'),
    resource_group=cfg.get('resource_group'), name=cfg.get('workspace'),
    auth=auth)]. *)
Definition workspace_of (cfg : pyval) (auth : credentials) : M workspace :=
  subscription_id ← lift (py_get cfg "subscription");
  resource_group ← lift (py_get cfg "resource_group");
  name ← lift (py_get cfg "workspace");
  call_out (CallWorkspaceGet subscription_id resource_group name auth)
    (λ _, Workspace_get azure subscription_id resource_group name auth).

(** [load_model_names()]. *)
Definition load_model_names : M (list string) :=
  cfg ← read_config CACHE;
  spa ← build_service_principal;
  ws ← workspace_of cfg spa;
  models ← call_out (CallModelList ws) (λ _, Model_list azure ws);
  mret (map (λ m, m_name m +:+ "::" +:+ pretty (m_version m)) models).

(** The path [fetch_model] looks for and loads from, with the directory
    handed to the download: [target_dir] and [downloaded_model_path]. *)
Definition artifact_paths (cfg : pyval) : result (string * string) :=
  let download_path := posix_join "." [CACHE] in
  match py_get cfg "model_version" with
  | Raise e => Raise e
  | Ok model_version =>
      match py_getitem cfg "model_name" with
      | Raise e => Raise e
      | Ok name =>
          match path_join (PStr download_path)
                  [name; match model_version with
                         | PNone => PStr "None"
                         | v => v
                         end] with
          | Raise e => Raise e
          | Ok target_dir =>
              match py_get cfg "model_name" with
              | Raise e => Raise e
              | Ok name' =>
                  match path_join (PStr target_dir) [name'] with
                  | Raise e => Raise e
                  | Ok downloaded_model_path =>
                      Ok (target_dir, downloaded_model_path)
                  end
              end
          end
      end
  end.

Definition load_pretrained (cls : pretrained_class) (path : string) : M unit :=
  call_out (CallFromPretrained cls path)
    (λ w, match from_pretrained azure cls (fs w) (cwd w) path with
          | None => Ok tt
          | Some e => Raise e
          end).

(** [fetch_model(cfg)]; [cfg] is [PNone] when the caller gives none.  The
    call of [download_model_from_workspace] names the workspace, the model
    name and the target directory; [model_version] is left at its default,
    [None]. *)
Definition fetch_model (cfg : pyval) : M (led_model * led_tokenizer) :=
  auth ← build_service_principal;
  cfg ← (match cfg with
          | PNone => read_config CACHE
          | _ => mret cfg
          end);
  paths ← lift (artifact_paths cfg);
  let '(target_dir, downloaded_model_path) := paths in
  found ← path_exists downloaded_model_path;
  (if negb (found : bool) then
     ws ← workspace_of cfg auth;
     model_name ← lift (py_get cfg "model_name");
     download_model_from_workspace ws model_name target_dir PNone;;
     mret tt
   else mret tt);;
  load_pretrained LEDForConditionalGeneration downloaded_model_path;;
  let model := {| model_dir := downloaded_model_path;
                  model_device := my_device |} in
  load_pretrained LEDTokenizer downloaded_model_path;;
  mret (model, {| tokenizer_dir := downloaded_model_path |}).

End Loader.

(** ** Vocabulary of the properties *)

(** The configuration file of a base directory: the path [read_config]
    computes, and the location it names once the base directory is
    there. *)
Definition config_path (base_dir : string) : string :=
  posix_join base_dir [MODEL_LOADER_CONFIG_JSON].

Definition config_key (cwd' : list string) (base_dir : string) : list string :=
  (start cwd' base_dir ++ Path_parts base_dir) ++ [MODEL_LOADER_CONFIG_JSON].

Definition plain (c : string) : bool := negb (is_dot c) && negb (is_dotdot c).

(** Every directory on the way from [cur] down [parts], both ends
    included, is a directory. *)
Fixpoint all_dirs (fs : fsmap) (cur : list string) (parts : list string)
  : bool :=
  is_dir fs cur &&
  match parts with
  | [] => true
  | c :: cs => all_dirs fs (cur ++ [c]) cs
  end.

(** On the way from [cur] down [parts] there are directories, then
    nothing: no regular file stands where a directory is wanted, and the
    names are plain. *)
Fixpoint usable (fs : fsmap) (cur : list string) (parts : list string)
  {struct parts} : bool :=
  match node_at fs cur with
  | Some Dir =>
      match parts with
      | [] => true
      | c :: cs => plain c && usable fs (cur ++ [c]) cs
      end
  | Some (File _) => false
  | None => forallb plain parts
  end.

(** A base directory [read_config] can use: the path is not empty,
    resolution starts in a directory, and the parts of the path are
    [usable]. *)
Definition dir_usable (fs : fsmap) (cwd' : list string) (p : string) : bool :=
  negb (String.eqb p EmptyString) &&
  is_dir fs (start cwd' p) &&
  usable fs (start cwd' p) (Path_parts p).

(** The outcome of [Path.mkdir(parents=True)] on a [usable] path: where
    the whole path is there already, nothing changes (and without
    [exist_ok] it raises); otherwise the call succeeds, the whole path is
    there afterwards, and its last directory is empty. *)
Definition mkdir_outcome (fs : fsmap) (cur : list string)
    (parts : list string) (exist_ok : bool) (r : result unit * fsmap)
  : Prop :=
  (all_dirs fs cur parts = true ∧
   r = (if exist_ok then Ok tt else Raise FileExistsError, fs)) ∨
  (all_dirs fs cur parts = false ∧
   ∃ fs1, r = (Ok tt, fs1) ∧
     all_dirs fs1 cur parts = true ∧
     ∀ j, (cur ++ parts) `prefix_of` j → j ≠ cur ++ parts → fs1 !! j = None).

(** ** Worlds and collaborators used as examples *)

(** A process in [/srv/app] with nothing else on disk, no environment
    variable set and no call made yet. *)
Definition app_fs : fsmap := {[ ["srv"] := Dir; ["srv"; "app"] := Dir ]}.

Definition app_world : world :=
  {| fs := app_fs; cwd := ["srv"; "app"]; environ := ∅; calls := [] |}.

(** The same process with a configuration file of the given text in
    [cache]. *)
Definition world_with_config (text : string) : world :=
  {| fs := <[ ["srv"; "app"; "cache"; "model_loader_config.json"] := File text ]>
             (<[ ["srv"; "app"; "cache"] := Dir ]> app_fs);
     cwd := ["srv"; "app"]; environ := ∅; calls := [] |}.

(** The same process with [MODEL_NAME=foo] in its environment. *)
Definition foo_world : world :=
  {| fs := app_fs; cwd := ["srv"; "app"];
     environ := {[ "MODEL_NAME" := "foo" ]}; calls := [] |}.

(** The record of the five hard-coded defaults. *)
Definition default_record : pyval :=
  record default_model_name default_subscription default_resource_group
    default_ml_workspace default_model_version.

(** What the specification says of a field: the variable's value when it
    is set and not empty, the default otherwise. *)
Definition from_environment (env : gmap string string) (var dflt x : string)
  : Prop :=
  (∃ v, env !! var = Some v ∧ v ≠ EmptyString ∧ x = v) ∨
  ((env !! var = None ∨ env !! var = Some EmptyString) ∧ x = dflt).



Definition credentials_of (env : gmap string string) : credentials :=
  {| tenant_id := env !! "TENANT_ID";
     service_principal_id := env !! "CLIENT_ID";
     service_principal_password := env !! "CLIENT_SECRET" |}.

(** The configuration [fetch_model] works with: the one it is given, or
    the one [read_config] resolves when it is given none. *)
Definition configuration_of (cfg : pyval) : M pyval :=
  match cfg with
  | PNone => read_config CACHE
  | _ => mret cfg
  end.

(** The end of [fetch_model]: the model and the tokenizer are loaded
    from the path. *)
Definition load_from (azure : collaborators) (path : string)
  : M (led_model * led_tokenizer) :=
  load_pretrained azure LEDForConditionalGeneration path;;
  load_pretrained azure LEDTokenizer path;;
  mret ({| model_dir := path; model_device := my_device azure |},
        {| tokenizer_dir := path |}).

(** A workspace that answers every call, and a loader that loads. *)
Definition answering : collaborators :=
  {| cuda_is_available := false;
     Workspace_get := λ _ _ _ _, Ok {| ws_name := "ecb-dev" |};
     Model_init := λ _ name _,
       match name with
       | PStr n => Ok {| m_name := n; m_version := 7 |}
       | _ => Raise TypeError
       end;
     Model_download := λ m target_dir _ fs' _,
       (Ok (posix_join target_dir [m_name m]), fs');
     Model_list := λ _, Ok [ {| m_name := "led-large-16384-arxiv";
                                m_version := 7 |} ];
     from_pretrained := λ _ _ _ _, None |}.

(** A process in [/srv/app] whose cache holds the artifact of model [m],
    version [3]. *)
Definition cached_world : world :=
  {| fs := <[ ["srv"; "app"; "cache"; "m"; "3"; "m"] := Dir ]>
             (<[ ["srv"; "app"; "cache"; "m"; "3"] := Dir ]>
                (<[ ["srv"; "app"; "cache"; "m"] := Dir ]>
                   (<[ ["srv"; "app"; "cache"] := Dir ]> app_fs)));
     cwd := ["srv"; "app"]; environ := ∅; calls := [] |}.

(** A call that asks the workspace for no particular version of a
    model. *)
Definition unpinned (c : call) : bool :=
  match c with
  | CallModelInit _ _ PNone => true
  | CallModelInit _ _ _ => false
  | _ => true
  end.

(** The layout of the specification:
    [./cache/<model_name>/<model_version>/<model_name>]. *)
Definition cache_layout (name version : string) : string :=
  "./cache/" +:+ name +:+ "/" +:+ version +:+ "/" +:+ name.

(** A name that can stand between separators: not empty, no separator at
    either end. *)
Definition component (s : string) : bool :=
  negb (String.eqb s EmptyString) && negb (startswith_sep s)
    && negb (endswith_sep s).

(** [/abs] is a directory; the cache is empty. *)
Definition abs_world : world :=
  {| fs := <[ ["abs"] := Dir ]> app_fs;
     cwd := ["srv"; "app"]; environ := ∅; calls := [] |}.

(** ** Vocabulary of the further properties *)

(** A process in [/srv/app] where [cache] is a regular file. *)
Definition blocked_world : world :=
  {| fs := <[ ["srv"; "app"; "cache"] := File "x" ]> app_fs;
     cwd := ["srv"; "app"]; environ := ∅; calls := [] |}.

(** A process in [/srv/app] where [cache/model_loader_config.json] is a
    directory. *)
Definition dir_config_world : world :=
  {| fs := <[ ["srv"; "app"; "cache"; "model_loader_config.json"] := Dir ]>
             (<[ ["srv"; "app"; "cache"] := Dir ]> app_fs);
     cwd := ["srv"; "app"]; environ := ∅; calls := [] |}.

(** [cfg.get(key)] where it does not raise. *)
Definition field (cfg : pyval) (key : string) : pyval :=
  match py_get cfg key with
  | Ok v => v
  | Raise _ => PNone
  end.

(** The workspace lookup of a configuration: [Workspace.get] with what
    [cfg.get] gives for its three keys. *)
Definition workspace_lookup (cfg : pyval) (auth : credentials) : call :=
  CallWorkspaceGet (field cfg "subscription") (field cfg "resource_group")
    (field cfg "workspace") auth.

Definition is_str (v : pyval) : bool :=
  match v with
  | PStr _ => true
  | _ => false
  end.

Definition is_dict (v : pyval) : bool :=
  match v with
  | PDict _ => true
  | _ => false
  end.

(** The world after some more calls. *)
Definition log_calls (w : world) (cs : list call) : world :=
  {| fs := fs w; cwd := cwd w; environ := environ w; calls := calls w ++ cs |}.

(** The calls of a load: the model, then the tokenizer from the same
    path, or the model alone. *)
Definition loads_protocol (made : list call) : bool :=
  match made with
  | [] => true
  | [CallFromPretrained LEDForConditionalGeneration _] => true
  | [CallFromPretrained LEDForConditionalGeneration p;
     CallFromPretrained LEDTokenizer p'] => String.eqb p p'
  | _ => false
  end.

(** The calls of a fetch, in their order: the workspace lookup, the
    lookup of a model at no particular version, its download with
    [exist_ok=True], then the load; or the load alone. *)
Definition fetch_protocol (made : list call) : bool :=
  match made with
  | CallWorkspaceGet _ _ _ _ :: after_lookup =>
      match after_lookup with
      | [] => true
      | CallModelInit _ _ PNone :: after_model =>
          match after_model with
          | [] => true
          | CallModelDownload _ _ true :: loads => loads_protocol loads
          | _ => false
          end
      | _ => false
      end
  | loads => loads_protocol loads
  end.

(** The calls of a listing: the workspace lookup, then the listing. *)
Definition listing_protocol (made : list call) : bool :=
  match made with
  | [] => true
  | [CallWorkspaceGet _ _ _ _] => true
  | [CallWorkspaceGet _ _ _ _; CallModelList _] => true
  | _ => false
  end.

(** An entry of the listing: [f'{m.name}::{m.version}']. *)
Definition model_label (m : aml_model) : string :=
  m_name m +:+ "::" +:+ pretty (m_version m).

(** Collaborators that answer as told: the workspace lookup, the model
    lookup, the download (an exception, or none) and the load of the
    model (an exception, or none).  The download writes nothing, also
    when it raises. *)
Definition collaborators_with (lookup : result workspace)
    (model : result aml_model) (transfer load : option exn) : collaborators :=
  {| cuda_is_available := false;
     Workspace_get := λ _ _ _ _, lookup;
     Model_init := λ _ _ _, model;
     Model_download := λ m target_dir _ fs' _,
       match transfer with
       | Some e => (Raise e, fs')
       | None => (Ok (posix_join target_dir [m_name m]), fs')
       end;
     Model_list := λ _, Ok [];
     from_pretrained := λ cls _ _ _,
       match cls with
       | LEDForConditionalGeneration => load
       | LEDTokenizer => None
       end |}.

(** A configuration whose version is a number, as a JSON file would give
    it. *)
Definition numbered_config : pyval :=
  PDict [("model_name", PStr "m"); ("model_version", PInt 3)].

(** A text without colon. *)
Fixpoint no_colon (s : string) : bool :=
  match s with
  | EmptyString => true
  | String c s' => negb (ord c =? 58) && no_colon s'
  end.

(** A call that stays on the machine. *)
Definition is_local (c : call) : bool := negb (is_remote c).

(** A workspace whose download puts a directory at
    [target_dir/<model name>], when [target_dir] is [./cache/m/3]. *)
Definition storing : collaborators :=
  {| cuda_is_available := false;
     Workspace_get := λ _ _ _ _, Ok {| ws_name := "ecb-dev" |};
     Model_init := λ _ _ _, Ok {| m_name := "m"; m_version := 7 |};
     Model_download := λ m target_dir _ _ _,
       (Ok (posix_join target_dir [m_name m]), fs cached_world);
     Model_list := λ _, Ok [];
     from_pretrained := λ _ _ _ _, None |}.

(** * Properties *)

#[local] Arguments String.append : simpl nomatch.

(** ** Strings and [os.path.join] *)

Lemma append_assoc (a b c : string) : (a +:+ b) +:+ c = a +:+ b +:+ c.
Proof. induction a as [|x a IH]; simpl; [done | by rewrite IH]. Qed.

Lemma ord_chr_eq (c : ascii) (n : nat) : (ord c =? n) = true → c = chr n.
Proof.
  intros H. apply Nat.eqb_eq in H. subst n. unfold chr, ord.
  by rewrite ascii_nat_embedding.
Qed.

Lemma eqb_empty_false (c : ascii) (s : string) :
  String.eqb (String c s) EmptyString = false.
Proof. done. Qed.

Lemma startswith_sep_app (a b : string) :
  a ≠ EmptyString → startswith_sep (a +:+ b) = startswith_sep a.
Proof. by destruct a. Qed.

Lemma endswith_sep_inv (a : string) :
  endswith_sep a = true → ∃ a0, a = a0 +:+ "/".
Proof.
  induction a as [|c a IH]; [done|]. simpl. destruct a as [|c' a'].
  - intros H. apply ord_chr_eq in H. subst c. by exists EmptyString.
  - intros H. destruct (IH H) as [a0 Ha0]. exists (String c a0).
    simpl. by rewrite <- Ha0.
Qed.

Lemma split_sep_cons (s : string) : ∃ x xs, split_sep s = x :: xs.
Proof.
  destruct s as [|c s]; simpl; [by eauto|].
  destruct (ord c =? 47); [by eauto|]. destruct (split_sep s); eauto.
Qed.

Lemma split_sep_app_sep (a b : string) :
  split_sep (a +:+ String "/"%char b) = split_sep a ++ split_sep b.
Proof.
  induction a as [|c a IH]; [done|]. simpl in *.
  destruct (ord c =? 47); [by rewrite IH|]. rewrite IH.
  by destruct (split_sep_cons a) as (x & xs & ->).
Qed.

Lemma split_sep_trailing (a0 : string) :
  split_sep (a0 +:+ "/") = split_sep a0 ++ [EmptyString].
Proof. exact (split_sep_app_sep a0 EmptyString). Qed.

Lemma join_step_cases (base name : string) :
  base ≠ EmptyString →
  startswith_sep name = false →
  (endswith_sep base = true ∧ join_step base name = base +:+ name) ∨
  (endswith_sep base = false ∧
   join_step base name = base +:+ String "/"%char name).
Proof.
  intros Hb Hn. unfold join_step. rewrite Hn.
  destruct base as [|c base]; [done|].
  rewrite eqb_empty_false, orb_false_l.
  destruct (endswith_sep (String c base)); [by left | by right].
Qed.

(** The components of [path.join(base_dir, name)], for a name without
    separator: those of [base_dir] up to its directory, then the name. *)
Lemma split_sep_join (base name : string) :
  base ≠ EmptyString →
  startswith_sep name = false →
  split_sep name = [name] →
  ∃ front,
    split_sep (posix_join base [name]) = front ++ [name] ∧
    (split_sep base = front ∨ split_sep base = front ++ [EmptyString]).
Proof.
  intros Hb Hn Hs. change (posix_join base [name]) with (join_step base name).
  destruct (join_step_cases base name Hb Hn) as [[He ->]|[He ->]].
  - destruct (endswith_sep_inv _ He) as [a0 ->].
    exists (split_sep a0). rewrite append_assoc.
    change ("/" +:+ name) with (String "/"%char name).
    rewrite split_sep_app_sep, Hs. split; [done|]. right.
    apply split_sep_trailing.
  - exists (split_sep base). rewrite split_sep_app_sep, Hs. by split; [|left].
Qed.

Lemma start_join (cwd' : list string) (base name : string) :
  base ≠ EmptyString →
  startswith_sep name = false →
  start cwd' (posix_join base [name]) = start cwd' base.
Proof.
  intros Hb Hn. change (posix_join base [name]) with (join_step base name).
  unfold start.
  destruct (join_step_cases base name Hb Hn) as [[_ ->]|[_ ->]];
    by rewrite startswith_sep_app.
Qed.

Lemma join_nonempty (base name : string) :
  base ≠ EmptyString →
  startswith_sep name = false →
  ∃ c s, posix_join base [name] = String c s.
Proof.
  intros Hb Hn. change (posix_join base [name]) with (join_step base name).
  destruct (join_step_cases base name Hb Hn) as [[_ ->]|[_ ->]];
    destruct base; [done| by eauto |done| by eauto].
Qed.

(** ** Path resolution *)

Lemma is_dir_node fs k : is_dir fs k = true ↔ node_at fs k = Some Dir.
Proof.
  unfold is_dir. destruct (node_at fs k) as [[]|]; naive_solver.
Qed.

Lemma walk_app fs cur l1 l2 :
  walk fs cur (l1 ++ l2) =
  match walk fs cur l1 with
  | Ok k => walk fs k l2
  | Raise e => Raise e
  end.
Proof.
  revert cur. induction l1 as [|c l1 IH]; intros cur; [done|]. simpl.
  destruct (node_at fs cur) as [[]|]; [done| |done].
  destruct (is_dot c); [apply IH|]. destruct (is_dotdot c); apply IH.
Qed.

Lemma walk_filter_ok fs cur cs k :
  walk fs cur cs = Ok k →
  walk fs cur (List.filter (λ c, negb (is_dot c)) cs) = Ok k.
Proof.
  revert cur. induction cs as [|c cs IH]; intros cur; [done|]. simpl.
  destruct (node_at fs cur) as [[]|] eqn:Hn; [done| |done].
  destruct (is_dot c) eqn:Hd; simpl; [apply IH|].
  rewrite Hn, Hd. destruct (is_dotdot c); apply IH.
Qed.

Lemma walk_unfilter_dir fs cur cs k :
  walk fs cur (List.filter (λ c, negb (is_dot c)) cs) = Ok k →
  is_dir fs k = true →
  walk fs cur cs = Ok k.
Proof.
  revert cur. induction cs as [|c cs IH]; intros cur; [done|]. simpl.
  destruct (is_dot c) eqn:Hd; simpl.
  - intros Hw Hk. destruct (node_at fs cur) as [[]|] eqn:Hn; [| by eauto |].
    + destruct (List.filter _ cs) as [|c' cs'] eqn:Hf; simpl in Hw.
      * injection Hw as <-. apply is_dir_node in Hk. congruence.
      * by rewrite Hn in Hw.
    + destruct (List.filter _ cs) as [|c' cs'] eqn:Hf; simpl in Hw.
      * injection Hw as <-. apply is_dir_node in Hk. congruence.
      * by rewrite Hn in Hw.
  - rewrite Hd. destruct (node_at fs cur) as [[]|]; [done| |done].
    destruct (is_dotdot c); apply IH.
Qed.

Lemma walk_plain fs cur parts k :
  forallb plain parts = true →
  walk fs cur parts = Ok k → k = cur ++ parts.
Proof.
  revert cur. induction parts as [|c cs IH]; intros cur Hp; simpl.
  - intros [= <-]. by rewrite app_nil_r.
  - simpl in Hp. apply andb_true_iff in Hp as [Hc Hp].
    unfold plain in Hc. apply andb_true_iff in Hc as [Hc1 Hc2].
    apply negb_true_iff in Hc1, Hc2. rewrite Hc1, Hc2.
    destruct (node_at fs cur) as [[]|]; [done| |done].
    intros Hw. apply IH in Hw; [|done]. by rewrite <- app_assoc in Hw.
Qed.

Lemma walk_all_dirs fs cur parts :
  forallb plain parts = true →
  all_dirs fs cur parts = true →
  walk fs cur parts = Ok (cur ++ parts).
Proof.
  revert cur. induction parts as [|c cs IH]; intros cur Hp; simpl.
  - intros _. by rewrite app_nil_r.
  - simpl in Hp. apply andb_true_iff in Hp as [Hc Hp].
    unfold plain in Hc. apply andb_true_iff in Hc as [Hc1 Hc2].
    apply negb_true_iff in Hc1, Hc2. rewrite Hc1, Hc2.
    intros [Hd Ha]%andb_true_iff. apply is_dir_node in Hd. rewrite Hd.
    rewrite IH by done. by rewrite <- app_assoc.
Qed.

Lemma all_dirs_last fs cur parts :
  all_dirs fs cur parts = true → is_dir fs (cur ++ parts) = true.
Proof.
  revert cur. induction parts as [|c cs IH]; intros cur; simpl.
  - rewrite app_nil_r. by intros [? _]%andb_true_iff.
  - intros [_ Ha]%andb_true_iff. apply IH in Ha.
    by rewrite <- app_assoc in Ha.
Qed.

Lemma all_dirs_snoc fs cur parts c :
  all_dirs fs cur (parts ++ [c]) =
  all_dirs fs cur parts && is_dir fs (cur ++ parts ++ [c]).
Proof.
  revert cur. induction parts as [|c' cs IH]; intros cur; simpl.
  - by rewrite !andb_true_r.
  - rewrite IH, <- !app_assoc. simpl. by rewrite andb_assoc.
Qed.

Lemma walk_ok_all_dirs fs cur parts :
  forallb plain parts = true →
  walk fs cur parts = Ok (cur ++ parts) →
  is_dir fs (cur ++ parts) = true →
  all_dirs fs cur parts = true.
Proof.
  revert cur. induction parts as [|c cs IH]; intros cur Hp; simpl.
  - rewrite app_nil_r. intros _ ->. done.
  - simpl in Hp. apply andb_true_iff in Hp as [Hc Hp].
    unfold plain in Hc. apply andb_true_iff in Hc as [Hc1 Hc2].
    apply negb_true_iff in Hc1, Hc2. rewrite Hc1, Hc2.
    destruct (node_at fs cur) as [[]|] eqn:Hn; [done| |done].
    intros Hw Hd. unfold is_dir at 1. rewrite Hn. simpl.
    apply IH; [done| |]; by rewrite <- app_assoc.
Qed.

Lemma usable_plain fs cur parts :
  usable fs cur parts = true → forallb plain parts = true.
Proof.
  revert cur. induction parts as [|c cs IH]; intros cur; [done|]. simpl.
  destruct (node_at fs cur) as [[]|]; [done| |done].
  intros [Hc Hu]%andb_true_iff. rewrite Hc. simpl. by eapply IH.
Qed.

Lemma forallb_app_l {A} (f : A → bool) l1 l2 :
  forallb f (l1 ++ l2) = true → forallb f l1 = true.
Proof. rewrite forallb_app. by intros [? _]%andb_true_iff. Qed.

Lemma usable_app_l fs cur l1 l2 :
  usable fs cur (l1 ++ l2) = true → usable fs cur l1 = true.
Proof.
  revert cur. induction l1 as [|c cs IH]; intros cur; simpl.
  - destruct l2; simpl; destruct (node_at fs cur) as [[]|]; done.
  - destruct (node_at fs cur) as [[]|]; [done| |].
    + intros [Hc Hu]%andb_true_iff. rewrite Hc. simpl. by eapply IH.
    + intros [Hc Hu]%andb_true_iff. rewrite Hc. simpl.
      by eapply forallb_app_l.
Qed.

(** Under [usable], just below directories there is no regular file. *)
Lemma usable_below_dirs fs cur parts c content :
  all_dirs fs cur parts = true →
  usable fs cur (parts ++ [c]) = true →
  node_at fs (cur ++ parts ++ [c]) ≠ Some (File content).
Proof.
  revert cur. induction parts as [|c' cs IH]; intros cur; simpl.
  - intros [Hd _]%andb_true_iff. apply is_dir_node in Hd. rewrite Hd.
    intros [_ Hu]%andb_true_iff.
    by destruct (node_at fs (cur ++ [c])) as [[]|].
  - intros [Hd Ha]%andb_true_iff. apply is_dir_node in Hd. rewrite Hd.
    intros [_ Hu]%andb_true_iff. specialize (IH _ Ha Hu).
    by rewrite <- app_assoc in IH.
Qed.

(** ** Creating directories *)

Lemma node_at_lookup (fs : fsmap) (k : list string) (c : string) :
  node_at fs (k ++ [c]) = fs !! (k ++ [c]).
Proof. by destruct k. Qed.

Lemma resolve_parent_dirs fs cur parts c :
  forallb plain parts = true →
  all_dirs fs cur parts = true →
  resolve_parent fs cur (parts ++ [c]) = Ok (cur ++ parts, c).
Proof.
  intros Hp Ha. unfold resolve_parent.
  rewrite removelast_last, last_last, walk_all_dirs by done.
  apply all_dirs_last, is_dir_node in Ha. by rewrite Ha.
Qed.

Lemma resolve_parent_missing fs cur parts c :
  usable fs cur parts = true →
  all_dirs fs cur parts = false →
  resolve_parent fs cur (parts ++ [c]) = Raise FileNotFoundError.
Proof.
  unfold resolve_parent. rewrite removelast_last, last_last.
  revert cur. induction parts as [|c' cs IH]; intros cur; simpl.
  - unfold is_dir. by destruct (node_at fs cur) as [[]|].
  - unfold is_dir at 1.
    destruct (node_at fs cur) as [[]|] eqn:Hn; [done| |done].
    intros [Hc Hu]%andb_true_iff Ha. simpl in Ha.
    unfold plain in Hc. apply andb_true_iff in Hc as [Hc1 Hc2].
    apply negb_true_iff in Hc1, Hc2. rewrite Hc1, Hc2. by apply IH.
Qed.

Lemma fresh_dir_at fs k : fresh_dir fs k !! k = Some Dir.
Proof. unfold fresh_dir. apply lookup_insert_eq. Qed.

Lemma fresh_dir_other fs k j :
  ¬ k `prefix_of` j → fresh_dir fs k !! j = fs !! j.
Proof.
  intros Hk. unfold fresh_dir. rewrite lookup_insert_ne.
  - destruct (fs !! j) as [n|] eqn:Hj.
    + by apply map_lookup_filter_Some_2.
    + apply map_lookup_filter_None_2. by left.
  - intros ->. by apply Hk.
Qed.

Lemma fresh_dir_below fs k j :
  k `prefix_of` j → j ≠ k → fresh_dir fs k !! j = None.
Proof.
  intros Hk Hj. unfold fresh_dir. rewrite lookup_insert_ne by done.
  apply map_lookup_filter_None_2. right. intros n _ Hn. by apply Hn.
Qed.

Lemma prefix_snoc_shorter (k parts q : list string) (c : string) :
  q `prefix_of` parts → ¬ (k ++ parts ++ [c]) `prefix_of` (k ++ q).
Proof.
  intros Hq Hp. apply prefix_length in Hq, Hp.
  rewrite !length_app in Hp. simpl in Hp. lia.
Qed.

Lemma is_dir_fresh_dir fs k j :
  is_dir fs j = true → ¬ k `prefix_of` j → is_dir (fresh_dir fs k) j = true.
Proof.
  intros Hd Hk. unfold is_dir, node_at in *. destruct j; [done|].
  by rewrite fresh_dir_other.
Qed.

Lemma all_dirs_fresh_dir fs cur parts k :
  all_dirs fs cur parts = true →
  (∀ q, q `prefix_of` parts → ¬ k `prefix_of` (cur ++ q)) →
  all_dirs (fresh_dir fs k) cur parts = true.
Proof.
  revert cur. induction parts as [|c cs IH]; intros cur; simpl.
  - intros Hd Hk. rewrite andb_true_r in *. apply is_dir_fresh_dir; [done|].
    specialize (Hk [] (prefix_nil _)). by rewrite app_nil_r in Hk.
  - intros [Hd Ha]%andb_true_iff Hk. apply andb_true_iff. split.
    + apply is_dir_fresh_dir; [done|].
      specialize (Hk [] (prefix_nil _)). by rewrite app_nil_r in Hk.
    + apply IH; [done|]. intros q Hq. rewrite <- app_assoc.
      apply (Hk (c :: q)). by apply prefix_cons.
Qed.

(** What [os.mkdir] does once the parent is there. *)
Lemma os_mkdir_in_dirs fs cur parts c :
  forallb plain (parts ++ [c]) = true →
  all_dirs fs cur parts = true →
  os_mkdir fs cur (parts ++ [c]) =
  match fs !! (cur ++ parts ++ [c]) with
  | Some _ => Raise FileExistsError
  | None => Ok (fresh_dir fs (cur ++ parts ++ [c]))
  end.
Proof.
  intros Hp Ha. unfold os_mkdir.
  rewrite forallb_app in Hp. apply andb_true_iff in Hp as [Hp Hc].
  simpl in Hc. rewrite andb_true_r in Hc. unfold plain in Hc.
  apply andb_true_iff in Hc as [_ Hc]. apply negb_true_iff in Hc.
  destruct (parts ++ [c]) as [|x xs] eqn:Hx; [by destruct parts|].
  rewrite <- Hx. rewrite resolve_parent_dirs by done.
  by rewrite Hc, <- app_assoc.
Qed.

Lemma os_mkdir_missing fs cur parts c :
  usable fs cur parts = true →
  all_dirs fs cur parts = false →
  os_mkdir fs cur (parts ++ [c]) = Raise FileNotFoundError.
Proof.
  intros Hu Ha. unfold os_mkdir.
  destruct (parts ++ [c]) as [|x xs] eqn:Hx; [by destruct parts|].
  rewrite <- Hx. by rewrite resolve_parent_missing.
Qed.

Lemma Path_is_dir_all_dirs fs cur parts :
  forallb plain parts = true →
  all_dirs fs cur parts = true →
  Path_is_dir fs cur parts = true.
Proof.
  intros Hp Ha. unfold Path_is_dir. rewrite walk_all_dirs by done.
  by apply all_dirs_last.
Qed.

Lemma Path_mkdir_parents_spec fs cur rparts exist_ok :
  is_dir fs cur = true →
  usable fs cur (rev rparts) = true →
  mkdir_outcome fs cur (rev rparts) exist_ok
    (Path_mkdir_parents fs cur rparts exist_ok).
Proof.
  intros Hcur. revert exist_ok.
  induction rparts as [|c rp IH]; intros exist_ok Hu.
  - left. simpl. rewrite Hcur. split; [done|].
    unfold Path_is_dir. simpl. rewrite Hcur. by destruct exist_ok.
  - simpl rev in *. pose proof (usable_plain _ _ _ Hu) as Hp.
    pose proof (usable_app_l _ _ _ _ Hu) as Hu'.
    pose proof (forallb_app_l _ _ _ Hp) as Hp'.
    destruct (IH true Hu') as [[Ha Hr]|[Ha (fs1 & Hr & Ha1 & Hbelow)]].
    + (* the parent is there *)
      cbn [Path_mkdir_parents]. simpl rev.
      rewrite os_mkdir_in_dirs by done.
      destruct (fs !! (cur ++ rev rp ++ [c])) as [n|] eqn:Hn.
      * left. destruct n as [content|].
        { exfalso. eapply usable_below_dirs; [exact Ha|exact Hu|].
          rewrite app_assoc, node_at_lookup, <- app_assoc. exact Hn. }
        assert (all_dirs fs cur (rev rp ++ [c]) = true) as Hall.
        { rewrite all_dirs_snoc, Ha. simpl. unfold is_dir.
          by rewrite app_assoc, node_at_lookup, <- app_assoc, Hn. }
        split; [done|]. rewrite Path_is_dir_all_dirs by done.
        by destruct exist_ok.
      * right. split.
        { rewrite all_dirs_snoc, Ha. simpl. unfold is_dir.
          by rewrite app_assoc, node_at_lookup, <- app_assoc, Hn. }
        eexists. split; [done|]. split.
        { rewrite all_dirs_snoc. apply andb_true_iff. split.
          - apply all_dirs_fresh_dir; [done|].
            intros q Hq. by apply prefix_snoc_shorter.
          - unfold is_dir.
            rewrite app_assoc, node_at_lookup, <- app_assoc.
            by rewrite fresh_dir_at. }
        intros j Hj Hne. by apply fresh_dir_below.
    + (* the parent is made first *)
      cbn [Path_mkdir_parents]. simpl rev.
      rewrite os_mkdir_missing by done. rewrite Hr.
      rewrite os_mkdir_in_dirs by done.
      rewrite Hbelow.
      * right. split.
        { rewrite all_dirs_snoc, Ha. done. }
        eexists. split; [done|]. split.
        { rewrite all_dirs_snoc. apply andb_true_iff. split.
          - apply all_dirs_fresh_dir; [done|].
            intros q Hq. by apply prefix_snoc_shorter.
          - unfold is_dir.
            rewrite app_assoc, node_at_lookup, <- app_assoc.
            by rewrite fresh_dir_at. }
        intros j Hj Hne. by apply fresh_dir_below.
      * rewrite app_assoc. by apply prefix_app_r.
      * rewrite app_assoc. intros Heq. apply (f_equal length) in Heq.
        rewrite !length_app in Heq. simpl in Heq. lia.
Qed.

(** ** Paths as strings *)

Lemma Path_parts_plain fs cur p :
  usable fs cur (Path_parts p) = true → forallb plain (Path_parts p) = true.
Proof. apply usable_plain. Qed.

Lemma walk_snoc_dirs fs cur ps c k :
  forallb plain ps = true →
  walk fs cur (ps ++ [c]) = Ok k → all_dirs fs cur ps = true.
Proof.
  intros Hp. rewrite walk_app. destruct (walk fs cur ps) as [k'|] eqn:Hw; [|done].
  pose proof (walk_plain _ _ _ _ Hp Hw) as ->. simpl.
  destruct (node_at fs (cur ++ ps)) as [[]|] eqn:Hn; [done| |done].
  intros _. apply walk_ok_all_dirs; [done..|]. by apply is_dir_node.
Qed.

(** A path without [..] names a directory exactly when all its
    directories are there. *)
Lemma stat_dir_all_dirs fs cwd' c p :
  forallb plain (Path_parts (String c p)) = true →
  stat fs cwd' (String c p) = Ok Dir ↔
  all_dirs fs (start cwd' (String c p)) (Path_parts (String c p)) = true.
Proof.
  intros Hp. unfold stat. set (s := String c p) in *. split.
  - destruct (walk fs (start cwd' s) (split_sep s)) as [k|] eqn:Hw; [|done].
    destruct (node_at fs k) as [[]|] eqn:Hn; [done| |done]. intros _.
    apply walk_filter_ok in Hw. fold (Path_parts s) in Hw.
    pose proof (walk_plain _ _ _ _ Hp Hw) as ->.
    apply walk_ok_all_dirs; [done..|]. by apply is_dir_node.
  - intros Ha. pose proof (all_dirs_last _ _ _ Ha) as Hd.
    rewrite (walk_unfilter_dir _ _ _ (start cwd' s ++ Path_parts s)).
    + apply is_dir_node in Hd. by rewrite Hd.
    + by apply walk_all_dirs.
    + done.
Qed.

(** Under [dir_usable], a base directory that exists is a directory. *)
Lemma usable_exists_dir fs cwd' p :
  dir_usable fs cwd' p = true →
  os_path_exists fs cwd' p = true →
  all_dirs fs (start cwd' p) (Path_parts p) = true.
Proof.
  unfold dir_usable. intros [[Hne Hs]%andb_true_iff Hu]%andb_true_iff.
  destruct p as [|c p]; [done|]. set (s := String c p) in *.
  pose proof (usable_plain _ _ _ Hu) as Hp.
  unfold os_path_exists, stat. fold s.
  destruct (walk fs (start cwd' s) (split_sep s)) as [k|] eqn:Hw; [|done].
  apply walk_filter_ok in Hw. fold (Path_parts s) in Hw.
  pose proof (walk_plain _ _ _ _ Hp Hw) as ->.
  destruct (node_at fs (start cwd' s ++ Path_parts s)) as [n|] eqn:Hn; [|done].
  intros _. apply walk_ok_all_dirs; [done..|]. apply is_dir_node.
  destruct n as [content|]; [|done]. exfalso.
  destruct (Path_parts s) as [|x xs _] using rev_ind.
  - rewrite app_nil_r in Hn. apply is_dir_node in Hs. congruence.
  - apply (usable_below_dirs fs (start cwd' s) xs x content); [|done..].
    eapply walk_snoc_dirs; [|exact Hw]. by eapply forallb_app_l.
Qed.

Lemma usable_missing fs cwd' p :
  dir_usable fs cwd' p = true →
  os_path_exists fs cwd' p = false →
  all_dirs fs (start cwd' p) (Path_parts p) = false.
Proof.
  intros Hu Hex. destruct (all_dirs _ _ _) eqn:Ha; [|done].
  unfold dir_usable in Hu. apply andb_true_iff in Hu as [[Hne Hs]%andb_true_iff Hu].
  destruct p as [|c p]; [done|].
  apply stat_dir_all_dirs in Ha; [|by eapply usable_plain].
  unfold os_path_exists in Hex. by rewrite Ha in Hex.
Qed.

(** [Path(p).mkdir(parents=True)] of a usable base directory that does
    not exist makes it, empty. *)
Lemma mkdir_parents_usable fs cwd' p :
  dir_usable fs cwd' p = true →
  os_path_exists fs cwd' p = false →
  ∃ fs1, mkdir_parents fs cwd' p = (Ok tt, fs1) ∧
    all_dirs fs1 (start cwd' p) (Path_parts p) = true ∧
    ∀ c, fs1 !! (start cwd' p ++ Path_parts p ++ [c]) = None.
Proof.
  intros Hu Hex. pose proof (usable_missing _ _ _ Hu Hex) as Ha.
  unfold dir_usable in Hu.
  apply andb_true_iff in Hu as [[Hne Hs]%andb_true_iff Hu].
  unfold mkdir_parents.
  destruct (Path_mkdir_parents_spec fs (start cwd' p) (rev (Path_parts p))
              false Hs) as [[Ha' _]|[_ (fs1 & Hr & Ha1 & Hb)]].
  - by rewrite rev_involutive.
  - rewrite rev_involutive in Ha'. congruence.
  - rewrite rev_involutive in *. exists fs1. split; [done|]. split; [done|].
    intros c. apply Hb.
    + rewrite app_assoc. by apply prefix_app_r.
    + rewrite app_assoc. intros Heq. apply (f_equal length) in Heq.
      rewrite !length_app in Heq. simpl in Heq. lia.
Qed.

Lemma walk_dot_end fs cur front k :
  walk fs cur (front ++ [EmptyString]) = Ok k → walk fs cur front = Ok k.
Proof.
  rewrite walk_app. destruct (walk fs cur front) as [k'|]; [|done]. simpl.
  destruct (node_at fs k') as [[]|]; [done| |done]. by intros [= ->].
Qed.

(** Where the directory of [path.join(base, name)] is. *)
Lemma resolve_parent_join fs cwd' base name :
  startswith_sep name = false →
  split_sep name = [name] →
  base ≠ EmptyString →
  forallb plain (Path_parts base) = true →
  all_dirs fs (start cwd' base) (Path_parts base) = true →
  resolve_parent fs (start cwd' (posix_join base [name]))
    (split_sep (posix_join base [name])) =
  Ok (start cwd' base ++ Path_parts base, name).
Proof.
  intros Hn Hs Hb Hp Ha. rewrite start_join by done.
  destruct (split_sep_join base name Hb Hn Hs) as (front & -> & Hfront).
  unfold resolve_parent. rewrite removelast_last, last_last.
  destruct base as [|c b]; [done|].
  pose proof (proj2 (stat_dir_all_dirs fs cwd' c b Hp) Ha) as Hst.
  unfold stat in Hst.
  destruct (walk fs (start cwd' (String c b)) (split_sep (String c b)))
    as [k|] eqn:Hw; [|done].
  destruct (node_at fs k) as [[]|] eqn:Hk; [done| |done].
  assert (k = start cwd' (String c b) ++ Path_parts (String c b)) as Hkeq.
  { eapply walk_plain; [done|]. by apply walk_filter_ok. }
  assert (walk fs (start cwd' (String c b)) front = Ok k) as ->.
  { destruct Hfront as [<-|Hf]; [done|]. rewrite Hf in Hw.
    by apply walk_dot_end. }
  rewrite Hk. by rewrite Hkeq.
Qed.

Lemma is_dir_insert_file (fs : fsmap) k content j :
  fs !! k ≠ Some Dir → k ≠ [] →
  is_dir fs j = true → is_dir (<[k := File content]> fs) j = true.
Proof.
  intros Hk Hne. unfold is_dir, node_at. destruct j as [|x j]; [done|].
  destruct (decide (k = x :: j)) as [->|Hkj].
  - by destruct (fs !! (x :: j)) as [[]|].
  - by rewrite lookup_insert_ne.
Qed.

Lemma all_dirs_mono (fs fs2 : fsmap) cur parts :
  (∀ j, is_dir fs j = true → is_dir fs2 j = true) →
  all_dirs fs cur parts = true → all_dirs fs2 cur parts = true.
Proof.
  intros Hm. revert cur. induction parts as [|c cs IH]; intros cur; simpl.
  - rewrite !andb_true_r. apply Hm.
  - intros [Hd Ha]%andb_true_iff. apply andb_true_iff. split; [by apply Hm|].
    by apply IH.
Qed.

(** The name of the configuration file is an ordinary file name. *)
Lemma config_name_plain :
  startswith_sep MODEL_LOADER_CONFIG_JSON = false ∧
  split_sep MODEL_LOADER_CONFIG_JSON = [MODEL_LOADER_CONFIG_JSON] ∧
  is_dot MODEL_LOADER_CONFIG_JSON = false ∧
  is_dotdot MODEL_LOADER_CONFIG_JSON = false.
Proof. by vm_compute. Qed.

(** In a base directory that is there, the configuration file is the
    entry of that name in it. *)
Lemma stat_config_file fs cwd' base :
  base ≠ EmptyString →
  forallb plain (Path_parts base) = true →
  all_dirs fs (start cwd' base) (Path_parts base) = true →
  stat fs cwd' (config_path base) =
  match fs !! config_key cwd' base with
  | Some n => Ok n
  | None => Raise FileNotFoundError
  end.
Proof.
  intros base_nonempty base_plain base_there.
  destruct config_name_plain as (Hn & Hs & _ & _).
  destruct (join_nonempty base _ base_nonempty Hn) as (c & s & Hcs).
  unfold stat, config_path. rewrite Hcs, <- Hcs.
  pose proof (resolve_parent_join fs cwd' base _ Hn Hs base_nonempty
                base_plain base_there) as Hrp.
  destruct (split_sep_join base _ base_nonempty Hn Hs) as (front & Hsp & _).
  unfold resolve_parent in Hrp. rewrite Hsp in *.
  rewrite removelast_last, last_last in Hrp. rewrite walk_app.
  destruct (walk fs _ front) as [k|]; [|done].
  destruct (node_at fs k) as [[]|] eqn:Hk; [done| |done].
  injection Hrp as ->. cbn [walk]. rewrite Hk.
  destruct config_name_plain as (_ & _ & -> & ->).
  unfold config_key. by rewrite node_at_lookup.
Qed.

Lemma write_config_file fs cwd' base content :
  base ≠ EmptyString →
  forallb plain (Path_parts base) = true →
  all_dirs fs (start cwd' base) (Path_parts base) = true →
  fs !! config_key cwd' base ≠ Some Dir →
  write_file fs cwd' (config_path base) content =
  Ok (<[config_key cwd' base := File content]> fs).
Proof.
  intros base_nonempty base_plain base_there Hk.
  destruct config_name_plain as (Hn & Hs & Hd & Hdd).
  destruct (join_nonempty base _ base_nonempty Hn) as (c & s & Hcs).
  unfold write_file, config_path. rewrite Hcs, <- Hcs.
  rewrite resolve_parent_join by done. rewrite Hd, Hdd. simpl.
  fold (config_key cwd' base). by destruct (fs !! config_key cwd' base) as [[]|].
Qed.

(** After the write, the base directory is still there and the file
    reads back. *)
Lemma config_file_written fs cwd' base content :
  base ≠ EmptyString →
  forallb plain (Path_parts base) = true →
  all_dirs fs (start cwd' base) (Path_parts base) = true →
  fs !! config_key cwd' base ≠ Some Dir →
  let fs2 := <[config_key cwd' base := File content]> fs in
  all_dirs fs2 (start cwd' base) (Path_parts base) = true ∧
  read_file fs2 cwd' (config_path base) = Ok content.
Proof.
  intros Hb Hp Ha Hk fs2.
  assert (all_dirs fs2 (start cwd' base) (Path_parts base) = true) as Ha2.
  { eapply all_dirs_mono; [|exact Ha]. intros j.
    apply is_dir_insert_file; [done|]. unfold config_key.
    by destruct (start cwd' base ++ Path_parts base). }
  split; [done|]. unfold read_file.
  rewrite stat_config_file by done. unfold fs2.
  by rewrite lookup_insert_eq.
Qed.

(** ** [json.load] after [json.dump] *)

Lemma length_append (a b : string) :
  String.length (a +:+ b) = String.length a + String.length b.
Proof. induction a as [|c a IH]; simpl; [done | by rewrite IH]. Qed.

(** The decoder reads an encoded string back, up to the closing quote. *)
Lemma scanstring_escape (s rest : string) :
  scanstring (escape s +:+ quote +:+ rest) = Some (s, rest).
Proof.
  induction s as [|c s IH]; [done|].
  cbn [escape]. rewrite append_assoc. simpl in IH.
  destruct c as [[] [] [] [] [] [] [] []]; simpl; by rewrite IH.
Qed.

Lemma scan_once_string (fuel : nat) (s rest : string) :
  scan_once (S fuel) (quote +:+ escape s +:+ quote +:+ rest) =
  Some (PStr s, rest).
Proof.
  change (quote +:+ escape s +:+ quote +:+ rest)
    with (String (chr 34) (escape s +:+ quote +:+ rest)).
  cbn [scan_once]. change (ord (chr 34) =? 34) with true. cbn iota.
  by rewrite scanstring_escape.
Qed.

(** One [key: value] pair of an object whose values are strings, followed
    by another pair. *)
Lemma object_items_more (fuel : nat) acc (k v tail : string) :
  object_items (S (S fuel)) acc
    (escape k +:+ quote +:+ ": " +:+ quote +:+ escape v +:+ quote
       +:+ ", " +:+ quote +:+ tail) =
  object_items (S fuel) (assoc_set k (PStr v) acc) tail.
Proof.
  cbn [object_items]. rewrite scanstring_escape.
  change (skip_ws (": " +:+ quote +:+ escape v +:+ quote
                     +:+ ", " +:+ quote +:+ tail))
    with (String ":"%char (String " "%char
            (quote +:+ escape v +:+ quote +:+ ", " +:+ quote +:+ tail))).
  change (ord ":"%char =? 58) with true. cbn iota.
  change (skip_ws (String " "%char
            (quote +:+ escape v +:+ quote +:+ ", " +:+ quote +:+ tail)))
    with (quote +:+ escape v +:+ quote +:+ ", " +:+ quote +:+ tail).
  rewrite scan_once_string. done.
Qed.

(** The last pair of such an object. *)
Lemma object_items_last (fuel : nat) acc (k v tail : string) :
  object_items (S (S fuel)) acc
    (escape k +:+ quote +:+ ": " +:+ quote +:+ escape v +:+ quote
       +:+ "}" +:+ tail) =
  Some (PDict (assoc_set k (PStr v) acc), tail).
Proof.
  cbn [object_items]. rewrite scanstring_escape.
  change (skip_ws (": " +:+ quote +:+ escape v +:+ quote +:+ "}" +:+ tail))
    with (String ":"%char (String " "%char
            (quote +:+ escape v +:+ quote +:+ "}" +:+ tail))).
  change (ord ":"%char =? 58) with true. cbn iota.
  change (skip_ws (String " "%char
            (quote +:+ escape v +:+ quote +:+ "}" +:+ tail)))
    with (quote +:+ escape v +:+ quote +:+ "}" +:+ tail).
  rewrite scan_once_string. done.
Qed.

Lemma json_dumps_record (v1 v2 v3 v4 v5 : string) :
  json_dumps (record v1 v2 v3 v4 v5) =
  "{" +:+ quote +:+
    escape "model_name" +:+ quote +:+ ": " +:+ quote +:+ escape v1
      +:+ quote +:+ ", " +:+ quote +:+
    escape "subscription" +:+ quote +:+ ": " +:+ quote +:+ escape v2
      +:+ quote +:+ ", " +:+ quote +:+
    escape "resource_group" +:+ quote +:+ ": " +:+ quote +:+ escape v3
      +:+ quote +:+ ", " +:+ quote +:+
    escape "workspace" +:+ quote +:+ ": " +:+ quote +:+ escape v4
      +:+ quote +:+ ", " +:+ quote +:+
    escape "model_version" +:+ quote +:+ ": " +:+ quote +:+ escape v5
      +:+ quote +:+ "}" +:+ EmptyString.
Proof.
  unfold record. cbn [json_dumps]. unfold encode_basestring_ascii.
  by rewrite !append_assoc.
Qed.

(** What [json.dump] writes for a configuration record, [json.load] reads
    back as that record. *)
Lemma json_loads_dumps_record (v1 v2 v3 v4 v5 : string) :
  json_loads (json_dumps (record v1 v2 v3 v4 v5)) = Ok (record v1 v2 v3 v4 v5).
Proof.
  rewrite json_dumps_record. unfold json_loads.
  set (items := escape "model_name" +:+ _).
  change (skip_ws ("{" +:+ quote +:+ items))
    with (String "{"%char (String (chr 34) items)).
  assert (∃ n, String.length items = S (S (S (S (S (S n)))))) as [n Hn].
  { unfold items. rewrite length_append. simpl. eauto. }
  cbn [String.length]. rewrite Hn. cbn [scan_once].
  change (ord "{"%char =? 34) with false.
  change (ord "{"%char =? 123) with true. cbn iota.
  change (skip_ws (String (chr 34) items)) with (String (chr 34) items).
  change (ord (chr 34) =? 125) with false.
  change (ord (chr 34) =? 34) with true. cbn iota.
  unfold items.
  rewrite !object_items_more, object_items_last. done.
Qed.

(** ** The fuel of the scanner *)

(** What the scanner returns after a value is shorter than what it was
    given, and the fuel it needs is bounded by what it has read: so the
    fuel [json_loads] gives, the length of the text plus one, never runs
    out on a text that can be decoded. *)

Lemma cons_char_inv c x k r :
  cons_char c x = Some (k, r) → ∃ k', x = Some (k', r).
Proof. destruct x as [[k' r']|]; simpl; [|done]. intros [= _ ->]. eauto. Qed.

Lemma scanstring_shorter_le (n : nat) (s k r : string) :
  String.length s ≤ n →
  scanstring s = Some (k, r) → String.length r < String.length s.
Proof.
  revert s k r. induction n as [|n IH]; intros s k r Hn.
  { destruct s; [done|]. simpl in Hn. lia. }
  destruct s as [|c rest]; [done|]. cbn [scanstring]. simpl in Hn.
  destruct (ord c =? 34); [intros [= _ ->]; simpl; lia|].
  destruct (ord c =? 92).
  - destruct rest as [|e rest1]; [done|]. simpl in Hn.
    destruct (ord e =? 117).
    + destruct rest1 as [|h1 [|h2 [|h3 [|h4 rest2]]]]; try done.
      destruct (hex4 h1 h2 h3 h4) as [m|]; [|done].
      destruct (m <? 256); [|done].
      intros (k' & Hs)%cons_char_inv. apply IH in Hs; simpl in *; lia.
    + destruct (unescape e); [|done].
      intros (k' & Hs)%cons_char_inv. apply IH in Hs; simpl in *; lia.
  - destruct (ord c <? 32); [done|].
    intros (k' & Hs)%cons_char_inv. apply IH in Hs; simpl in *; lia.
Qed.

Lemma scanstring_shorter (s k r : string) :
  scanstring s = Some (k, r) → String.length r < String.length s.
Proof. by apply (scanstring_shorter_le (String.length s)). Qed.

Lemma skip_ws_length (s : string) :
  String.length (skip_ws s) ≤ String.length s.
Proof.
  induction s as [|c s IH]; [done|]. simpl.
  destruct (is_ws c); simpl; lia.
Qed.

Lemma skip_ws_cons_length (s : string) c r :
  skip_ws s = String c r → String.length r < String.length s.
Proof.
  intros H. pose proof (skip_ws_length s) as Hl. rewrite H in Hl.
  simpl in Hl. lia.
Qed.

Lemma strip_prefix_length (p s r : string) :
  strip_prefix p s = Some r →
  String.length s = String.length p + String.length r.
Proof.
  revert s. induction p as [|a p IH]; intros s; simpl.
  - by intros [= ->].
  - destruct s as [|b s]; [done|]. destruct (ord a =? ord b); [|done].
    intros H%IH. simpl. lia.
Qed.

Lemma span_digits_length (s : string) :
  String.length (span_digits s).2 ≤ String.length s.
Proof.
  induction s as [|c s IH]; [done|]. simpl.
  destruct (is_digit c); [|done].
  destruct (span_digits s) as [ds r]. simpl in *. lia.
Qed.

Lemma opt_frac_length (s : string) :
  String.length (opt_frac s).2 ≤ String.length s.
Proof.
  destruct s as [|dot r]; [done|]. unfold opt_frac.
  destruct (ord dot =? 46); [|done].
  pose proof (span_digits_length r) as Hl.
  destruct (span_digits r) as [[|d fd] r']; simpl in *; lia.
Qed.

Lemma opt_exp_length (s : string) :
  String.length (opt_exp s).2 ≤ String.length s.
Proof.
  destruct s as [|e r]; [done|]. unfold opt_exp.
  destruct ((ord e =? 101) || (ord e =? 69)); [|done].
  destruct r as [|sg t].
  - done.
  - destruct ((ord sg =? 43) || (ord sg =? 45)).
    + pose proof (span_digits_length t) as Hl.
      destruct (span_digits t) as [[|d ed] r']; simpl in *; lia.
    + pose proof (span_digits_length (String sg t)) as Hl.
      destruct (span_digits (String sg t)) as [[|d ed] r']; simpl in *; lia.
Qed.

Lemma match_unsigned_shorter (neg : bool) (s : string) v r :
  match_unsigned neg s = Some (v, r) → String.length r < String.length s.
Proof.
  destruct s as [|d r1]; [done|]. unfold match_unsigned.
  destruct (is_digit d) eqn:Hd; [|done].
  assert (∃ int_part r2,
    (if ord d =? 48 then (str1 d, r1) else span_digits (String d r1))
      = (int_part, r2) ∧ String.length r2 ≤ String.length r1)
    as (ip & r2 & -> & Hr2).
  { destruct (ord d =? 48); [by eauto|]. simpl. rewrite Hd.
    pose proof (span_digits_length r1).
    destruct (span_digits r1) as [ds r']. eauto. }
  pose proof (opt_frac_length r2) as Hf.
  destruct (opt_frac r2) as [frac r3].
  pose proof (opt_exp_length r3) as He.
  destruct (opt_exp r3) as [expo r4]. simpl in *.
  destruct frac, expo; intros [= _ <-]; lia.
Qed.

Lemma match_number_shorter (s : string) v r :
  match_number s = Some (v, r) → String.length r < String.length s.
Proof.
  destruct s as [|c r0]; [done|]. unfold match_number.
  destruct (ord c =? 45); intros H%match_unsigned_shorter; simpl in *; lia.
Qed.

Lemma match_constant_shorter (s : string) v r :
  match_constant s = Some (v, r) → String.length r < String.length s.
Proof.
  unfold match_constant.
  destruct (strip_prefix "null" s) eqn:H1.
  { intros [= _ <-]. apply strip_prefix_length in H1. simpl in H1. lia. }
  destruct (strip_prefix "true" s) eqn:H2.
  { intros [= _ <-]. apply strip_prefix_length in H2. simpl in H2. lia. }
  destruct (strip_prefix "false" s) eqn:H3.
  { intros [= _ <-]. apply strip_prefix_length in H3. simpl in H3. lia. }
  destruct (match_number s) as [[v' r']|] eqn:H4.
  { intros [= _ <-]. by eapply match_number_shorter. }
  destruct (strip_prefix "NaN" s) eqn:H5.
  { intros [= _ <-]. apply strip_prefix_length in H5. simpl in H5. lia. }
  destruct (strip_prefix "Infinity" s) eqn:H6.
  { intros [= _ <-]. apply strip_prefix_length in H6. simpl in H6. lia. }
  destruct (strip_prefix "-Infinity" s) eqn:H7; [|done].
  intros [= _ <-]. apply strip_prefix_length in H7. simpl in H7. lia.
Qed.

(** The three parts of the scanner return less text than they were
    given. *)
Lemma scanner_shorter (fuel : nat) :
  (∀ s v r, scan_once fuel s = Some (v, r) →
            String.length r < String.length s) ∧
  (∀ acc s v r, object_items fuel acc s = Some (v, r) →
                String.length r < String.length s) ∧
  (∀ acc s v r, array_items fuel acc s = Some (v, r) →
                String.length r < String.length s).
Proof.
  induction fuel as [|fuel (IHs & IHo & IHa)]; [done|].
  split; [|split].
  - intros s v r. cbn [scan_once]. destruct s as [|c rest]; [done|].
    destruct (ord c =? 34).
    { destruct (scanstring rest) as [[str r']|] eqn:Hs; [|done].
      intros [= _ <-]. apply scanstring_shorter in Hs. simpl. lia. }
    destruct (ord c =? 123).
    { destruct (skip_ws rest) as [|c1 r1] eqn:Hw; [done|].
      apply skip_ws_cons_length in Hw.
      destruct (ord c1 =? 125); [intros [= _ <-]; simpl; lia|].
      destruct (ord c1 =? 34); [|done].
      intros H%IHo. simpl. lia. }
    destruct (ord c =? 91).
    { destruct (skip_ws rest) as [|c1 r1] eqn:Hw; [done|].
      pose proof (skip_ws_length rest) as Hl. rewrite Hw in Hl.
      destruct (ord c1 =? 93); [intros [= _ <-]; simpl in *; lia|].
      intros H%IHa. simpl in *. lia. }
    apply match_constant_shorter.
  - intros acc s v r. cbn [object_items].
    destruct (scanstring s) as [[key r0]|] eqn:Hs; [|done].
    apply scanstring_shorter in Hs.
    destruct (skip_ws r0) as [|colon r1] eqn:Hw; [done|].
    apply skip_ws_cons_length in Hw.
    destruct (ord colon =? 58); [|done].
    destruct (scan_once fuel (skip_ws r1)) as [[v' r2]|] eqn:Hv; [|done].
    apply IHs in Hv. pose proof (skip_ws_length r1) as Hl1.
    destruct (skip_ws r2) as [|c r3] eqn:Hw2; [done|].
    apply skip_ws_cons_length in Hw2.
    destruct (ord c =? 125); [intros [= _ <-]; lia|].
    destruct (ord c =? 44); [|done].
    destruct (skip_ws r3) as [|q r4] eqn:Hw3; [done|].
    apply skip_ws_cons_length in Hw3.
    destruct (ord q =? 34); [|done].
    intros H%IHo. lia.
  - intros acc s v r. cbn [array_items].
    destruct (scan_once fuel s) as [[v' r0]|] eqn:Hv; [|done].
    apply IHs in Hv.
    destruct (skip_ws r0) as [|c r1] eqn:Hw; [done|].
    apply skip_ws_cons_length in Hw.
    destruct (ord c =? 93); [intros [= _ <-]; lia|].
    destruct (ord c =? 44); [|done].
    intros H%IHa. pose proof (skip_ws_length r1). lia.
Qed.

(** A result found with some fuel is found with any fuel above the
    number of characters read. *)
Lemma scanner_fuel (fuel : nat) :
  (∀ s v r, scan_once fuel s = Some (v, r) →
     ∀ f, String.length s - String.length r < f →
          scan_once f s = Some (v, r)) ∧
  (∀ acc s v r, object_items fuel acc s = Some (v, r) →
     ∀ f, String.length s - String.length r < f →
          object_items f acc s = Some (v, r)) ∧
  (∀ acc s v r, array_items fuel acc s = Some (v, r) →
     ∀ f, String.length s - String.length r < f →
          array_items f acc s = Some (v, r)).
Proof.
  induction fuel as [|fuel (IHs & IHo & IHa)]; [done|].
  destruct (scanner_shorter fuel) as (Ss & So & Sa).
  split; [|split].
  - intros s v r. cbn [scan_once]. destruct s as [|c rest]; [done|].
    intros H f Hf. destruct f as [|f]; [lia|]. cbn [scan_once].
    destruct (ord c =? 34); [done|].
    destruct (ord c =? 123).
    { destruct (skip_ws rest) as [|c1 r1] eqn:Hw; [done|].
      apply skip_ws_cons_length in Hw.
      destruct (ord c1 =? 125); [done|].
      destruct (ord c1 =? 34); [|done].
      pose proof (So _ _ _ _ H). apply (IHo _ _ _ _ H). simpl in Hf. lia. }
    destruct (ord c =? 91); [|done].
    destruct (skip_ws rest) as [|c1 r1] eqn:Hw; [done|].
    pose proof (skip_ws_length rest) as Hl. rewrite Hw in Hl.
    destruct (ord c1 =? 93); [done|].
    pose proof (Sa _ _ _ _ H). apply (IHa _ _ _ _ H). simpl in *. lia.
  - intros acc s v r H f Hf. destruct f as [|f]; [lia|].
    cbn [object_items] in *.
    destruct (scanstring s) as [[key r0]|] eqn:Hs; [|done].
    apply scanstring_shorter in Hs.
    destruct (skip_ws r0) as [|colon r1] eqn:Hw; [done|].
    apply skip_ws_cons_length in Hw.
    destruct (ord colon =? 58); [|done].
    destruct (scan_once fuel (skip_ws r1)) as [[v' r2]|] eqn:Hv; [|done].
    pose proof (Ss _ _ _ Hv) as Hv'. pose proof (skip_ws_length r1) as Hl1.
    assert (String.length r < String.length r2) as Hr.
    { destruct (skip_ws r2) as [|c r3] eqn:Hw2; [done|].
      apply skip_ws_cons_length in Hw2.
      destruct (ord c =? 125); [injection H as _ <-; lia|].
      destruct (ord c =? 44); [|done].
      destruct (skip_ws r3) as [|q r4] eqn:Hw3; [done|].
      apply skip_ws_cons_length in Hw3.
      destruct (ord q =? 34); [|done]. apply So in H. lia. }
    rewrite (IHs _ _ _ Hv f) by lia.
    destruct (skip_ws r2) as [|c r3] eqn:Hw2; [done|].
    apply skip_ws_cons_length in Hw2.
    destruct (ord c =? 125); [done|].
    destruct (ord c =? 44); [|done].
    destruct (skip_ws r3) as [|q r4] eqn:Hw3; [done|].
    apply skip_ws_cons_length in Hw3.
    destruct (ord q =? 34); [|done].
    apply (IHo _ _ _ _ H). lia.
  - intros acc s v r H f Hf. destruct f as [|f]; [lia|].
    cbn [array_items] in *.
    destruct (scan_once fuel s) as [[v' r0]|] eqn:Hv; [|done].
    pose proof (Ss _ _ _ Hv) as Hv'.
    assert (String.length r < String.length r0) as Hr.
    { destruct (skip_ws r0) as [|c r1] eqn:Hw; [done|].
      apply skip_ws_cons_length in Hw.
      destruct (ord c =? 93); [injection H as _ <-; lia|].
      destruct (ord c =? 44); [|done].
      apply Sa in H. pose proof (skip_ws_length r1). lia. }
    rewrite (IHs _ _ _ Hv f) by lia.
    destruct (skip_ws r0) as [|c r1] eqn:Hw; [done|].
    apply skip_ws_cons_length in Hw.
    destruct (ord c =? 93); [done|].
    destruct (ord c =? 44); [|done].
    apply (IHa _ _ _ _ H). pose proof (skip_ws_length r1). lia.
Qed.

(** The fuel of [json_loads] is enough: a value the scanner finds with any
    fuel, it finds with the length of the text plus one. *)
Lemma scan_once_fuel_enough (fuel : nat) (s : string) v r :
  scan_once fuel s = Some (v, r) →
  scan_once (S (String.length s)) s = Some (v, r).
Proof.
  intros H. destruct (scanner_fuel fuel) as (Hs & _ & _).
  apply (Hs _ _ _ H). lia.
Qed.

(** A text [json_loads] rejects is one no fuel would decode. *)
Lemma json_loads_rejects (text : string) :
  is_ok (json_loads text) = false →
  ∀ fuel v r, scan_once fuel (skip_ws text) = Some (v, r) →
              skip_ws r ≠ EmptyString.
Proof.
  unfold json_loads. intros H fuel v r Hs.
  rewrite (scan_once_fuel_enough _ _ _ _ Hs) in H.
  by destruct (skip_ws r).
Qed.

(** A text that [json_loads] refuses with [JSONDecodeError] has no wide
    escape, or it starts with a value the scanner has read and goes on
    after it. *)
Lemma json_loads_refused (text : string) :
  json_loads text = Raise JSONDecodeError →
  wide_escape text = false ∨
  ∃ v r, scan_once (S (String.length (skip_ws text))) (skip_ws text)
           = Some (v, r) ∧ skip_ws r ≠ EmptyString.
Proof.
  unfold json_loads. intros H.
  destruct (scan_once _ _) as [[v r]|].
  - right. exists v, r. split; [done|]. by destruct (skip_ws r).
  - left. by destruct (wide_escape text).
Qed.

(** ** [read_config] *)

Lemma dir_usable_inv fs cwd' p :
  dir_usable fs cwd' p = true →
  p ≠ EmptyString ∧ forallb plain (Path_parts p) = true.
Proof.
  unfold dir_usable. intros [[Hne _]%andb_true_iff Hu]%andb_true_iff.
  split; [by destruct p | by eapply usable_plain].
Qed.

(** With no configuration file, in a usable base directory:
    [read_config] returns the record built from the environment, the
    filesystem is the only thing changed, the base directory is a
    directory afterwards, and the file holds the dump of the record. *)
Lemma read_config_no_file w base_dir :
  dir_usable (fs w) (cwd w) base_dir = true →
  os_path_exists (fs w) (cwd w) (config_path base_dir) = false →
  ∃ fs', read_config base_dir w =
           (Ok (config_from_env (environ w)), set_fs w fs') ∧
         read_file fs' (cwd w) (config_path base_dir)
           = Ok (json_dumps (config_from_env (environ w))) ∧
         stat fs' (cwd w) base_dir = Ok Dir.
Proof.
  intros Hu Hex. destruct (dir_usable_inv _ _ _ Hu) as [Hne Hp].
  unfold read_config. fold (config_path base_dir).
  unfold mbind, M_bind, path_exists. rewrite Hex.
  cbn [mret M_ret config_of_environ].
  assert (∃ fs1,
    (if negb (os_path_exists (fs w) (cwd w) base_dir)
     then Path_mkdir base_dir else mret ()) w = (Ok (), set_fs w fs1) ∧
    all_dirs fs1 (start (cwd w) base_dir) (Path_parts base_dir) = true ∧
    fs1 !! config_key (cwd w) base_dir = None) as (fs1 & -> & Ha & Hk).
  { destruct (os_path_exists (fs w) (cwd w) base_dir) eqn:Hb; cbn [negb].
    - exists (fs w). split; [by destruct w|].
      pose proof (usable_exists_dir _ _ _ Hu Hb) as Ha. split; [done|].
      unfold os_path_exists in Hex. rewrite stat_config_file in Hex by done.
      by destruct (fs w !! _).
    - destruct (mkdir_parents_usable _ _ _ Hu Hb) as (fs1 & Hm & Ha & Hk).
      exists fs1. unfold Path_mkdir. rewrite Hm. split; [done|].
      split; [done|]. unfold config_key. rewrite <- app_assoc. apply Hk. }
  unfold open_write. cbn [fs cwd set_fs].
  rewrite write_config_file by (done || by rewrite Hk).
  eexists. split; [reflexivity|].
  destruct (config_file_written fs1 (cwd w) base_dir
              (json_dumps (config_from_env (environ w))) Hne Hp Ha)
    as [Ha2 Hr]; [by rewrite Hk|].
  split; [done|]. destruct base_dir as [|c b]; [done|].
  by apply stat_dir_all_dirs.
Qed.

(** With a configuration file whose text parses to something other than
    [None], [read_config] returns what it parsed and the world is as
    before. *)
Lemma read_config_file w base_dir text cfg :
  read_file (fs w) (cwd w) (config_path base_dir) = Ok text →
  json_loads text = Ok cfg →
  cfg ≠ PNone →
  read_config base_dir w = (Ok cfg, w).
Proof.
  intros Hr Hj Hc. unfold read_config. fold (config_path base_dir).
  unfold mbind, M_bind, path_exists.
  assert (os_path_exists (fs w) (cwd w) (config_path base_dir) = true) as ->.
  { unfold os_path_exists. unfold read_file in Hr.
    by destruct (stat _ _ _). }
  unfold open_read, lift. rewrite Hr, Hj. by destruct cfg.
Qed.

(** ** The configuration resolver *)

(** C9. If the configuration file is there and its text is refused by
    the JSON decoder, [read_config] raises [JSONDecodeError] and the
    world is as it was: nothing is repaired, no environment variable or
    default is used, the file is not written.  The refusal is the
    decoder's own: no amount of fuel makes the scanner read the text as
    one value with only white space after it.  A text that is
    well-formed but holds a u-escape above [00ff] is not refused
    ([json_loads] answers [OutsideModel] for it), so the theorem says
    nothing of it. *)
Theorem read_config_malformed_raises w base_dir text :
  read_file (fs w) (cwd w) (config_path base_dir) = Ok text →
  json_loads text = Raise JSONDecodeError →
  read_config base_dir w = (Raise JSONDecodeError, w) ∧
  ∀ fuel v r, scan_once fuel (skip_ws text) = Some (v, r) →
              skip_ws r ≠ EmptyString.
Proof.
  intros Hr Hj. split.
  - unfold read_config, mbind, M_bind, path_exists.
    fold (config_path base_dir).
    assert (os_path_exists (fs w) (cwd w) (config_path base_dir) = true)
      as ->.
    { unfold os_path_exists. unfold read_file in Hr.
      by destruct (stat _ _ _). }
    unfold open_read, lift. by rewrite Hr, Hj.
  - apply json_loads_rejects. by rewrite Hj.
Qed.

Lemma read_config_malformed_raises_witness :
  read_file (fs (world_with_config "{")) (cwd (world_with_config "{"))
    (config_path CACHE) = Ok "{" ∧
  read_config CACHE (world_with_config "{")
    = (Raise JSONDecodeError, world_with_config "{").
Proof.
  split; [by vm_compute|].
  apply (read_config_malformed_raises (world_with_config "{") CACHE "{");
    by vm_compute.
Defined.

(** A well-formed text with the escape of the euro sign, and the same
    text cut short: the decoder refuses neither, both are outside the
    model. *)
Lemma json_loads_wide_escape :
  let text := quote +:+ backslash +:+ "u20ac" +:+ quote in
  json_loads text = Raise OutsideModel ∧
  json_loads (quote +:+ backslash +:+ "u20ac") = Raise OutsideModel ∧
  read_config CACHE (world_with_config text)
    = (Raise OutsideModel, world_with_config text).
Proof. by vm_compute. Qed.

(** An escape up to [00ff] is decoded. *)
Lemma json_loads_narrow_escape :
  json_loads (quote +:+ backslash +:+ "u00e9" +:+ quote)
    = Ok (PStr (str1 (chr 233))).
Proof. by vm_compute. Qed.

(** C2, as the code has it. If the configuration file is there and its
    text parses to a JSON value other than [null], [read_config] returns
    that value and the world, the file included, is as it was. *)
Theorem read_config_returns_file w base_dir text cfg :
  read_file (fs w) (cwd w) (config_path base_dir) = Ok text →
  json_loads text = Ok cfg →
  cfg ≠ PNone →
  read_config base_dir w = (Ok cfg, w).
Proof. apply read_config_file. Qed.

Lemma read_config_returns_file_witness :
  read_file (fs (world_with_config "[1, 2]")) (cwd (world_with_config "[1, 2]"))
    (config_path CACHE) = Ok "[1, 2]" ∧
  read_config CACHE (world_with_config "[1, 2]")
    = (Ok (PList [PInt 1; PInt 2]), world_with_config "[1, 2]").
Proof.
  split; [by vm_compute|].
  apply (read_config_returns_file (world_with_config "[1, 2]") CACHE "[1, 2]");
    by vm_compute.
Defined.

(** C2, as stated, fails on a configuration file that holds [null]: the
    file is there and parses (to [None]), yet [read_config] returns the
    record of the defaults and writes it over the file. *)
Lemma read_config_null_file_rewritten :
  read_file (fs (world_with_config "null")) (cwd (world_with_config "null"))
    (config_path CACHE) = Ok "null" ∧
  json_loads "null" = Ok PNone ∧
  (read_config CACHE (world_with_config "null")).1 = Ok default_record ∧
  (read_config CACHE (world_with_config "null")).1 ≠ Ok PNone ∧
  read_file (fs (read_config CACHE (world_with_config "null")).2)
    (cwd (world_with_config "null")) (config_path CACHE)
    = Ok (json_dumps default_record) ∧
  json_dumps default_record ≠ "null".
Proof. repeat split; by vm_compute. Qed.

(** C4. With no configuration file and none of the five variables set,
    in a base directory that can be used, [read_config] returns the record
    of the five defaults; afterwards the base directory is a directory
    (made with its parents where it was not there), the configuration
    file holds the JSON text of that record, which reads back as the
    record, and nothing but the filesystem has changed. *)
Theorem read_config_defaults w base_dir :
  dir_usable (fs w) (cwd w) base_dir = true →
  os_path_exists (fs w) (cwd w) (config_path base_dir) = false →
  (∀ var, var ∈ ["MODEL_NAME"; "SUBSCRIPTION"; "RESOURCE_GROUP";
                  "ML_WORKSPACE"; "MODEL_VERSION"] → environ w !! var = None) →
  ∃ fs', read_config base_dir w = (Ok default_record, set_fs w fs') ∧
         stat fs' (cwd w) base_dir = Ok Dir ∧
         read_file fs' (cwd w) (config_path base_dir)
           = Ok (json_dumps default_record) ∧
         json_loads (json_dumps default_record) = Ok default_record.
Proof.
  intros Hu Hex Henv.
  destruct (read_config_no_file w base_dir Hu Hex) as (fs' & Hrc & Hrf & Hst).
  assert (config_from_env (environ w) = default_record) as Hcfg.
  { unfold config_from_env, default_record, env_or.
    rewrite !Henv; [done|rewrite !elem_of_cons; tauto..]. }
  rewrite Hcfg in *. exists fs'. split; [done|]. split; [done|].
  split; [done|]. apply json_loads_dumps_record.
Qed.

Lemma read_config_defaults_witness :
  ∃ fs', read_config CACHE app_world = (Ok default_record, set_fs app_world fs') ∧
         stat fs' (cwd app_world) CACHE = Ok Dir ∧
         read_file fs' (cwd app_world) (config_path CACHE)
           = Ok (json_dumps default_record) ∧
         json_loads (json_dumps default_record) = Ok default_record.
Proof.
  apply (read_config_defaults app_world CACHE); [by vm_compute..|].
  intros var _. apply lookup_empty.
Defined.

Lemma env_or_from_environment env var dflt :
  from_environment env var dflt (env_or env var dflt).
Proof.
  unfold from_environment, env_or.
  destruct (env !! var) as [[|c v]|]; [right|left|right]; eauto.
Qed.

(** C5. With no configuration file, in a base directory that can be used,
    [read_config] returns a record whose five fields come from
    [MODEL_NAME], [SUBSCRIPTION], [RESOURCE_GROUP], [ML_WORKSPACE] and
    [MODEL_VERSION]: the value of the variable where it is set and not
    empty, the fixed default where it is unset or empty.  In particular,
    with [MODEL_NAME=foo] and nothing else set the record has
    [model_name] [foo] and the other four defaults. *)
Theorem read_config_from_environment w base_dir :
  dir_usable (fs w) (cwd w) base_dir = true →
  os_path_exists (fs w) (cwd w) (config_path base_dir) = false →
  ∃ name subscription resource_group ws version,
    (read_config base_dir w).1
      = Ok (record name subscription resource_group ws version) ∧
    from_environment (environ w) "MODEL_NAME" default_model_name name ∧
    from_environment (environ w) "SUBSCRIPTION" default_subscription
      subscription ∧
    from_environment (environ w) "RESOURCE_GROUP" default_resource_group
      resource_group ∧
    from_environment (environ w) "ML_WORKSPACE" default_ml_workspace ws ∧
    from_environment (environ w) "MODEL_VERSION" default_model_version
      version ∧
    (environ w = {[ "MODEL_NAME" := "foo" ]} →
     record name subscription resource_group ws version
       = record "foo" default_subscription default_resource_group
           default_ml_workspace default_model_version).
Proof.
  intros Hu Hex.
  destruct (read_config_no_file w base_dir Hu Hex) as (fs' & -> & _ & _).
  unfold config_from_env. do 5 eexists.
  split; [reflexivity|]. repeat split; try apply env_or_from_environment.
  intros ->. by vm_compute.
Qed.

Lemma read_config_from_environment_witness :
  (read_config CACHE foo_world).1
    = Ok (record "foo" default_subscription default_resource_group
            default_ml_workspace default_model_version).
Proof.
  destruct (read_config_from_environment foo_world CACHE)
    as (n & s & g & ws & v & -> & _ & _ & _ & _ & _ & Hfoo);
    [by vm_compute..|].
  f_equal. by apply Hfoo.
Defined.

(** C6. In a usable base directory without configuration file,
    [read_config] called twice: the first call returns a record and
    leaves its JSON text in the file; the second call, in the world the
    first one left, returns the same record and changes nothing. *)
Theorem read_config_idempotent w base_dir :
  dir_usable (fs w) (cwd w) base_dir = true →
  os_path_exists (fs w) (cwd w) (config_path base_dir) = false →
  ∃ cfg w1,
    read_config base_dir w = (Ok cfg, w1) ∧
    read_file (fs w1) (cwd w1) (config_path base_dir) = Ok (json_dumps cfg) ∧
    read_config base_dir w1 = (Ok cfg, w1).
Proof.
  intros Hu Hex.
  destruct (read_config_no_file w base_dir Hu Hex) as (fs' & Hrc & Hrf & _).
  exists (config_from_env (environ w)), (set_fs w fs').
  split; [done|]. split; [done|].
  apply (read_config_file _ _ (json_dumps (config_from_env (environ w))));
    [done| |done].
  apply json_loads_dumps_record.
Qed.

Lemma read_config_idempotent_witness :
  ∃ cfg w1,
    read_config CACHE foo_world = (Ok cfg, w1) ∧
    read_file (fs w1) (cwd w1) (config_path CACHE) = Ok (json_dumps cfg) ∧
    read_config CACHE w1 = (Ok cfg, w1).
Proof. apply (read_config_idempotent foo_world CACHE); by vm_compute. Defined.





(** ** The model fetcher *)

Lemma build_service_principal_run w :
  build_service_principal w = (Ok (credentials_of (environ w)), w).
Proof. done. Qed.

Lemma bind_run {A B} (m : M A) (k : A → M B) (w : world) :
  (m ≫= k) w =
  match m w with
  | (Ok a, w') => k a w'
  | (Raise e, w') => (Raise e, w')
  end.
Proof. done. Qed.

(** [read_config] touches the filesystem only: it makes no call and
    leaves the working directory and the environment alone. *)
Lemma read_config_frame base_dir w :
  calls (read_config base_dir w).2 = calls w ∧
  cwd (read_config base_dir w).2 = cwd w ∧
  environ (read_config base_dir w).2 = environ w.
Proof.
  unfold read_config, mbind, M_bind, path_exists, open_read, lift,
    config_of_environ, Path_mkdir, open_write, mret, M_ret.
  destruct (os_path_exists (fs w) (cwd w) _).
  - destruct (read_file _ _ _) as [text|]; [|done].
    destruct (json_loads text) as [[]|]; try done.
    destruct (negb _); cbn [fs cwd set_fs].
    + destruct (mkdir_parents _ _ _) as [[[]|e] fs1]; [|done].
      cbn [fs cwd set_fs].
      by destruct (write_file _ _ _ _).
    + by destruct (write_file _ _ _ _).
  - destruct (negb _); cbn [fs cwd set_fs].
    + destruct (mkdir_parents _ _ _) as [[[]|e] fs1]; [|done].
      cbn [fs cwd set_fs].
      by destruct (write_file _ _ _ _).
    + by destruct (write_file _ _ _ _).
Qed.

Lemma configuration_of_calls cfg w :
  calls (configuration_of cfg w).2 = calls w.
Proof.
  unfold configuration_of.
  destruct cfg; try done. apply read_config_frame.
Qed.

Lemma fetch_model_unfold azure cfg w :
  fetch_model azure cfg w =
  match configuration_of cfg w with
  | (Raise e, w1) => (Raise e, w1)
  | (Ok cfg', w1) =>
      match artifact_paths cfg' with
      | Raise e => (Raise e, w1)
      | Ok (target_dir, path) =>
          if os_path_exists (fs w1) (cwd w1) path then load_from azure path w1
          else
            (ws ← workspace_of azure cfg' (credentials_of (environ w));
             model_name ← lift (py_get cfg' "model_name");
             download_model_from_workspace azure ws model_name target_dir
               PNone;;
             load_from azure path) w1
      end
  end.
Proof.
  unfold fetch_model, load_from.
  rewrite bind_run, build_service_principal_run.
  change (match cfg with PNone => read_config CACHE | _ => mret cfg end)
    with (configuration_of cfg).
  rewrite bind_run.
  destruct (configuration_of cfg w) as [[cfg'|e] w1]; [|done].
  rewrite bind_run. unfold lift at 1.
  destruct (artifact_paths cfg') as [[t p]|]; [|done].
  rewrite bind_run. unfold path_exists.
  destruct (os_path_exists (fs w1) (cwd w1) p); cbn [negb].
  - by rewrite bind_run.
  - rewrite !bind_run.
    destruct (workspace_of _ _ _ w1) as [[ws|e] w2]; [|done].
    rewrite !bind_run.
    destruct (lift _ w2) as [[n|e] w3]; [|done].
    rewrite !bind_run.
    by destruct (download_model_from_workspace _ _ _ _ _ w3) as [[x|e] w4].
Qed.

(** Loading the model and the tokenizer makes the two loader calls, or
    the first one only when it raises. *)
Lemma load_calls azure path w :
  ∃ made, calls (load_from azure path w).2 = calls w ++ made ∧
    made `prefix_of` [CallFromPretrained LEDForConditionalGeneration path;
                      CallFromPretrained LEDTokenizer path] ∧
    fs (load_from azure path w).2 = fs w.
Proof.
  unfold load_from. rewrite !bind_run.
  unfold load_pretrained, call_out.
  destruct (from_pretrained azure LEDForConditionalGeneration _ _ _).
  - exists [CallFromPretrained LEDForConditionalGeneration path].
    split; [done|]. split; [|done].
    by exists [CallFromPretrained LEDTokenizer path].
  - rewrite !bind_run.
    exists [CallFromPretrained LEDForConditionalGeneration path;
            CallFromPretrained LEDTokenizer path].
    cbn [fs cwd log_call].
    destruct (from_pretrained azure LEDTokenizer _ _ _);
      (split; [simpl; by rewrite <- app_assoc|]; split; [|done]); by exists [].
Qed.

(** C3. Where the local artifact path of the configuration exists,
    [fetch_model] makes no call to the remote workspace: no workspace
    lookup, no model lookup, no download.  The only calls it makes are
    those that load the model and the tokenizer from that path, and it
    leaves the filesystem as the resolution of the configuration left it. *)
Theorem fetch_model_cache_hit azure w cfg cfg' w1 target_dir path :
  configuration_of cfg w = (Ok cfg', w1) →
  artifact_paths cfg' = Ok (target_dir, path) →
  os_path_exists (fs w1) (cwd w1) path = true →
  ∃ made, calls (fetch_model azure cfg w).2 = calls w ++ made ∧
    Forall (λ c, is_remote c = false) made ∧
    made `prefix_of` [CallFromPretrained LEDForConditionalGeneration path;
                      CallFromPretrained LEDTokenizer path] ∧
    fs (fetch_model azure cfg w).2 = fs w1.
Proof.
  intros Hc Hp Hex. rewrite fetch_model_unfold, Hc, Hp, Hex.
  destruct (load_calls azure path w1) as (made & Hm & Hpre & Hfs).
  exists made. rewrite Hm.
  pose proof (configuration_of_calls cfg w) as Hcalls. rewrite Hc in Hcalls.
  simpl in Hcalls. rewrite Hcalls. split; [done|]. split; [|done].
  destruct Hpre as [rest Hrest].
  destruct made as [|c1 [|c2 [|c3 made]]]; simplify_eq/=;
    repeat constructor.
Qed.

Lemma fetch_model_cache_hit_witness :
  ∃ made,
    calls (fetch_model answering (record "m" "s" "g" "w" "3") cached_world).2
      = calls cached_world ++ made ∧
    Forall (λ c, is_remote c = false) made ∧
    made `prefix_of`
      [CallFromPretrained LEDForConditionalGeneration "./cache/m/3/m";
       CallFromPretrained LEDTokenizer "./cache/m/3/m"] ∧
    fs (fetch_model answering (record "m" "s" "g" "w" "3") cached_world).2
      = fs cached_world.
Proof.
  apply (fetch_model_cache_hit answering cached_world
           (record "m" "s" "g" "w" "3") (record "m" "s" "g" "w" "3")
           cached_world "./cache/m/3" "./cache/m/3/m"); by vm_compute.
Defined.

(** Whatever the configuration and the world, a model [fetch_model] asks
    the workspace for is asked for at version [None]. *)
Lemma fetch_model_never_pins azure cfg w :
  ∃ made, calls (fetch_model azure cfg w).2 = calls w ++ made ∧
          forallb unpinned made = true.
Proof.
  rewrite fetch_model_unfold.
  pose proof (configuration_of_calls cfg w) as Hc.
  destruct (configuration_of cfg w) as [[cfg'|e] w1]; simpl in Hc.
  2: { exists []. by rewrite app_nil_r. }
  destruct (artifact_paths cfg') as [[t p]|].
  2: { exists []. by rewrite app_nil_r. }
  assert (∀ w2, ∃ made, calls (load_from azure p w2).2 = calls w2 ++ made ∧
                        forallb unpinned made = true) as Hload.
  { intros w2. destruct (load_calls azure p w2) as (made & Hm & [rest Hr] & _).
    exists made. split; [done|].
    destruct made as [|c1 [|c2 [|c3 made]]]; by simplify_eq/=. }
  destruct (os_path_exists (fs w1) (cwd w1) p).
  { destruct (Hload w1) as (made & -> & Hm). exists made. by rewrite Hc. }
  rewrite bind_run. unfold workspace_of. rewrite !bind_run. unfold lift at 1.
  destruct (py_get cfg' "subscription") as [sub|].
  2: { exists []. by rewrite app_nil_r. }
  rewrite !bind_run. unfold lift at 1.
  destruct (py_get cfg' "resource_group") as [rg|].
  2: { exists []. by rewrite app_nil_r. }
  rewrite !bind_run. unfold lift at 1.
  destruct (py_get cfg' "workspace") as [wn|].
  2: { exists []. by rewrite app_nil_r. }
  unfold call_out at 1.
  set (c1 := CallWorkspaceGet sub rg wn _).
  destruct (Workspace_get azure sub rg wn _) as [ws'|].
  2: { exists [c1]. simpl. by rewrite Hc. }
  rewrite bind_run. unfold lift at 1.
  destruct (py_get cfg' "model_name") as [n|].
  2: { exists [c1]. simpl. by rewrite Hc. }
  rewrite bind_run. unfold download_model_from_workspace.
  rewrite bind_run. unfold call_out at 1.
  set (c2 := CallModelInit ws' n PNone).
  destruct (Model_init azure ws' n PNone) as [m|].
  2: { exists [c1; c2]. simpl. by rewrite Hc, <- app_assoc. }
  rewrite bind_run. unfold download.
  set (c3 := CallModelDownload m t true).
  destruct (Model_download azure m t true _ _) as [[mp|e] fs'].
  2: { exists [c1; c2; c3]. simpl. by rewrite Hc, <- !app_assoc. }
  cbn [mret M_ret].
  set (w4 := set_fs _ fs').
  destruct (Hload w4) as (made & -> & Hm).
  exists ([c1; c2; c3] ++ made). split.
  - unfold w4. simpl. by rewrite Hc, <- !app_assoc.
  - by rewrite forallb_app, Hm.
Qed.

(** C1, on the code. The configuration asks for version [3] of model [m]
    and the cache is empty: [fetch_model] looks the workspace up, makes
    one download call into [./cache/m/3], and loads from
    [./cache/m/3/m]; but the model it asks the workspace for is [m] at
    version [None], not at the configured version.  And so it is for
    every configuration, every world and every workspace: no call
    [fetch_model] makes names a version. *)
Theorem fetch_model_download_unpinned :
  calls (fetch_model answering (record "m" "s" "g" "w" "3") app_world).2 =
  [ CallWorkspaceGet (PStr "s") (PStr "g") (PStr "w") (credentials_of ∅);
    CallModelInit {| ws_name := "ecb-dev" |} (PStr "m") PNone;
    CallModelDownload {| m_name := "m"; m_version := 7 |} "./cache/m/3" true;
    CallFromPretrained LEDForConditionalGeneration "./cache/m/3/m";
    CallFromPretrained LEDTokenizer "./cache/m/3/m" ] ∧
  ∀ azure cfg w,
    ∃ made, calls (fetch_model azure cfg w).2 = calls w ++ made ∧
            forallb unpinned made = true.
Proof. split; [by vm_compute | apply fetch_model_never_pins]. Qed.

(** ** The local artifact path *)

Lemma append_nonempty_r (a b : string) :
  b ≠ EmptyString → a +:+ b ≠ EmptyString.
Proof. by destruct a, b. Qed.

Lemma endswith_sep_app (a b : string) :
  b ≠ EmptyString → endswith_sep (a +:+ b) = endswith_sep b.
Proof.
  intros Hb. induction a as [|c a IH]; [done|]. simpl.
  pose proof (append_nonempty_r a b Hb) as Hab.
  by destruct (a +:+ b).
Qed.

Lemma component_inv (s : string) :
  component s = true →
  s ≠ EmptyString ∧ startswith_sep s = false ∧ endswith_sep s = false.
Proof.
  unfold component. intros [[H1 H2]%andb_true_iff H3]%andb_true_iff.
  apply negb_true_iff in H1, H2, H3. split; [|done]. by intros ->.
Qed.

Lemma join_step_component (path b : string) :
  path ≠ EmptyString → endswith_sep path = false → startswith_sep b = false →
  join_step path b = path +:+ String "/"%char b.
Proof.
  intros Hp He Hb.
  destruct (join_step_cases path b Hp Hb) as [[He' _]|[_ ->]]; [|done].
  congruence.
Qed.

Lemma endswith_sep_slash (a b : string) :
  b ≠ EmptyString →
  endswith_sep (a +:+ String "/"%char b) = endswith_sep b.
Proof.
  intros Hb. rewrite endswith_sep_app by done. by destruct b.
Qed.

Lemma posix_join_layout (name version : string) :
  component name = true → component version = true →
  posix_join "." [CACHE; name; version; name] = cache_layout name version.
Proof.
  intros (Hn1 & Hn2 & Hn3)%component_inv (Hv1 & Hv2 & Hv3)%component_inv.
  unfold posix_join, cache_layout. cbn [fold_left].
  change (join_step "." CACHE) with "./cache".
  rewrite (join_step_component "./cache" name) by done.
  rewrite (join_step_component _ version);
    [|done|by rewrite endswith_sep_slash|done].
  rewrite (join_step_component _ name);
    [|by apply append_nonempty_r|by rewrite endswith_sep_slash|done].
  by rewrite !append_assoc.
Qed.

Lemma py_get_getitem cfg key s :
  py_get cfg key = Ok (PStr s) → py_getitem cfg key = Ok (PStr s).
Proof.
  destruct cfg; try done. simpl.
  by destruct (assoc_get key d) as [v|]; simpl; intros [= ->].
Qed.

Lemma load_from_dirs azure path w m t w' :
  load_from azure path w = (Ok (m, t), w') →
  model_dir m = path ∧ tokenizer_dir t = path.
Proof.
  unfold load_from. rewrite bind_run.
  destruct (load_pretrained _ _ _ w) as [[[]|e] w1]; [|done].
  rewrite bind_run.
  destruct (load_pretrained _ _ _ w1) as [[[]|e] w2]; [|done].
  by intros [= <- <- _].
Qed.

(** C7, as the code has it. The path [fetch_model] looks for and loads from
    is [os.path.join('.', 'cache', name, version, name)], where [name] is
    the model name of the configuration and [version] its model version,
    or [None] spelled out when the configuration has none: a function of
    these two alone, the same in every world.  For a name and a version
    that are components it is [./cache/<name>/<version>/<name>]. *)
Theorem artifact_path_of_name_and_version cfg name version :
  py_get cfg "model_name" = Ok (PStr name) →
  py_get cfg "model_version" = Ok (PStr version) ∨
    (py_get cfg "model_version" = Ok PNone ∧ version = "None") →
  let path := posix_join "." [CACHE; name; version; name] in
  artifact_paths cfg = Ok (posix_join "." [CACHE; name; version], path) ∧
  (component name = true → component version = true →
   path = cache_layout name version) ∧
  (∀ azure w m t w',
     fetch_model azure cfg w = (Ok (m, t), w') →
     model_dir m = path ∧ tokenizer_dir t = path) ∧
  (∀ d d',
     assoc_get "model_name" d = assoc_get "model_name" d' →
     assoc_get "model_version" d = assoc_get "model_version" d' →
     artifact_paths (PDict d) = artifact_paths (PDict d')).
Proof.
  intros Hn Hv path.
  assert (artifact_paths cfg
            = Ok (posix_join "." [CACHE; name; version], path)) as Hp.
  { unfold artifact_paths. rewrite (py_get_getitem _ _ _ Hn), Hn.
    by destruct Hv as [->|[-> ->]]. }
  split; [done|]. split; [apply posix_join_layout|]. split.
  - intros azure w m t w'. rewrite fetch_model_unfold.
    assert (configuration_of cfg w = (Ok cfg, w)) as ->
      by (by destruct cfg).
    rewrite Hp. destruct (os_path_exists _ _ _); [apply load_from_dirs|].
    rewrite bind_run.
    destruct (workspace_of _ _ _ w) as [[ws|e] w1]; [|done].
    rewrite bind_run. destruct (lift _ w1) as [[n|e] w2]; [|done].
    rewrite bind_run.
    destruct (download_model_from_workspace _ _ _ _ _ w2) as [[x|e] w3];
      [|done].
    apply load_from_dirs.
  - intros d d' H1 H2. unfold artifact_paths, py_get, py_getitem.
    by rewrite H1, H2.
Qed.

Lemma artifact_path_of_name_and_version_witness :
  artifact_paths (record "m" "s" "g" "w" "3")
    = Ok ("./cache/m/3", "./cache/m/3/m") ∧
  "./cache/m/3/m" = cache_layout "m" "3".
Proof.
  destruct (artifact_path_of_name_and_version
              (record "m" "s" "g" "w" "3") "m" "3")
    as (Hp & Hl & _ & _); [by vm_compute|by left; vm_compute|].
  split; [exact Hp|]. by apply Hl.
Defined.

(** C7, as stated, fails for a model name that begins with a separator:
    [os.path.join] starts again from it, and the path [fetch_model] looks
    for and loads from is the name itself, outside the cache. *)
Lemma artifact_path_absolute_name :
  artifact_paths (record "/abs" "s" "g" "w" "None")
    = Ok ("/abs/None", "/abs") ∧
  "/abs" ≠ cache_layout "/abs" "None" ∧
  os_path_exists (fs abs_world) (cwd abs_world) "/abs" = true ∧
  os_path_exists (fs abs_world) (cwd abs_world) (cache_layout "/abs" "None")
    = false ∧
  (fetch_model answering (record "/abs" "s" "g" "w" "None") abs_world).1
    = Ok ({| model_dir := "/abs"; model_device := cpu |},
          {| tokenizer_dir := "/abs" |}).
Proof. repeat split; by vm_compute. Qed.

(** ** The enumeration of model names *)

(** C10. With no configuration file in [cache], which can be used as a
    directory, [load_model_names] resolves the configuration first:
    whatever the workspace answers, when it returns or raises the [cache]
    directory is there with [model_loader_config.json] in it, holding the
    record built from the environment, and the first call it has made is
    the workspace lookup, with the account of that record. *)
Theorem load_model_names_writes_config azure w :
  dir_usable (fs w) (cwd w) CACHE = true →
  os_path_exists (fs w) (cwd w) (config_path CACHE) = false →
  let cfg := config_from_env (environ w) in
  let w' := (load_model_names azure w).2 in
  stat (fs w') (cwd w') CACHE = Ok Dir ∧
  read_file (fs w') (cwd w') (config_path CACHE) = Ok (json_dumps cfg) ∧
  read_config CACHE w = (Ok cfg, set_fs w (fs w')) ∧
  ∃ subscription resource_group name rest,
    py_get cfg "subscription" = Ok subscription ∧
    py_get cfg "resource_group" = Ok resource_group ∧
    py_get cfg "workspace" = Ok name ∧
    calls w' = calls w ++
      CallWorkspaceGet subscription resource_group name
        (credentials_of (environ w)) :: rest.
Proof.
  intros Hu Hex cfg w'.
  destruct (read_config_no_file w CACHE Hu Hex) as (fs1 & Hrc & Hrf & Hst).
  fold cfg in Hrc, Hrf.
  assert (fs w' = fs1 ∧ cwd w' = cwd w ∧
          ∃ rest, calls w' = calls w ++
            CallWorkspaceGet
              (PStr (env_or (environ w) "SUBSCRIPTION" default_subscription))
              (PStr (env_or (environ w) "RESOURCE_GROUP"
                       default_resource_group))
              (PStr (env_or (environ w) "ML_WORKSPACE" default_ml_workspace))
              (credentials_of (environ w)) :: rest)
    as (Hfs & Hcwd & rest & Hcalls).
  { unfold w', load_model_names. rewrite bind_run, Hrc.
    rewrite bind_run, build_service_principal_run.
    rewrite bind_run. unfold workspace_of, cfg, config_from_env.
    rewrite !bind_run. unfold lift. cbn [py_get record assoc_get String.eqb
      Ascii.eqb Bool.eqb default]. simpl.
    unfold call_out.
    destruct (Workspace_get azure _ _ _ _) as [ws|]; simpl.
    - rewrite !bind_run. cbv beta.
      destruct (Model_list azure ws); simpl.
      all: split; [done|]; split; [done|]; eexists; by rewrite <- app_assoc.
    - eauto. }
  rewrite Hfs, Hcwd. split; [done|]. split; [done|]. split; [done|].
  do 4 eexists. split; [|split; [|split; [|exact Hcalls]]]; done.
Qed.

Lemma load_model_names_writes_config_witness :
  stat (fs (load_model_names answering app_world).2) ["srv"; "app"] CACHE
    = Ok Dir ∧
  (load_model_names answering app_world).1 = Ok ["led-large-16384-arxiv::7"].
Proof.
  destruct (load_model_names_writes_config answering app_world)
    as (Hst & _); [by vm_compute..|].
  split; [exact Hst|by vm_compute].
Defined.

(** * Further properties *)

(** ** More of [read_config] *)

(** Whatever exists under the path of the configuration file, the base
    directory is a directory. *)
Lemma config_file_in_dir fs cwd' base :
  base ≠ EmptyString →
  os_path_exists fs cwd' (config_path base) = true →
  stat fs cwd' base = Ok Dir.
Proof.
  intros Hb. destruct config_name_plain as (Hn & Hs & Hd & Hdd).
  destruct (join_nonempty base _ Hb Hn) as (c & s & Hcs).
  unfold os_path_exists, stat, config_path. rewrite Hcs, <- Hcs.
  rewrite start_join by done.
  destruct (split_sep_join base _ Hb Hn Hs) as (front & -> & Hfront).
  rewrite walk_app.
  destruct (walk fs (start cwd' base) front) as [k|] eqn:Hw; [|done].
  cbn [walk]. destruct (node_at fs k) as [[]|] eqn:Hk; [done| |done].
  intros _. destruct base as [|c0 b]; [done|].
  destruct Hfront as [-> | ->].
  - by rewrite Hw, Hk.
  - rewrite walk_app, Hw. cbn [walk]. rewrite Hk.
    change (is_dot EmptyString) with true. cbv iota. by rewrite Hk.
Qed.

Lemma read_config_not_none base_dir w cfg w1 :
  read_config base_dir w = (Ok cfg, w1) → cfg ≠ PNone.
Proof.
  intros H ->. revert H.
  unfold read_config, mbind, M_bind, path_exists, open_read, lift,
    config_of_environ, Path_mkdir, open_write, mret, M_ret.
  destruct (os_path_exists (fs w) (cwd w) _).
  - destruct (read_file _ _ _) as [text|]; [|done].
    destruct (json_loads text) as [[]|]; try done.
    destruct (negb _); cbn [fs cwd set_fs].
    + destruct (mkdir_parents _ _ _) as [[[]|e] fs1]; [|done].
      cbn [fs cwd set_fs].
      by destruct (write_file _ _ _ _).
    + by destruct (write_file _ _ _ _).
  - destruct (negb _); cbn [fs cwd set_fs].
    + destruct (mkdir_parents _ _ _) as [[[]|e] fs1]; [|done].
      cbn [fs cwd set_fs].
      by destruct (write_file _ _ _ _).
    + by destruct (write_file _ _ _ _).
Qed.

(** [read_config] never returns [None]: what it returns is the parsed
    content of the file, when that is not [None], or the record it has
    built. *)
Theorem read_config_never_none base_dir w :
  (read_config base_dir w).1 ≠ Ok PNone.
Proof.
  destruct (read_config base_dir w) as [r w1] eqn:H. simpl. intros ->.
  by apply (read_config_not_none _ _ _ _ H).
Qed.

(** [read_config] is local: whether it returns or raises, it has made no
    call to a collaborator, and the working directory and the environment
    are as they were. *)
Theorem read_config_local base_dir w :
  calls (read_config base_dir w).2 = calls w ∧
  cwd (read_config base_dir w).2 = cwd w ∧
  environ (read_config base_dir w).2 = environ w.
Proof. apply read_config_frame. Qed.

(** The record is written over whatever file is at the place of the
    configuration file, in a base directory that is there. *)
Lemma read_config_builds w base_dir :
  dir_usable (fs w) (cwd w) base_dir = true →
  os_path_exists (fs w) (cwd w) base_dir = true →
  (fs w) !! config_key (cwd w) base_dir ≠ Some Dir →
  (cfg ← config_of_environ;
   base_found ← path_exists base_dir;
   (if negb (base_found : bool) then Path_mkdir base_dir else mret tt);;
   open_write (config_path base_dir) (json_dumps cfg);;
   mret cfg) w =
  (Ok (config_from_env (environ w)),
   set_fs w (<[config_key (cwd w) base_dir :=
                 File (json_dumps (config_from_env (environ w)))]> (fs w))).
Proof.
  intros Hu Hb Hk. destruct (dir_usable_inv _ _ _ Hu) as [Hne Hp].
  pose proof (usable_exists_dir _ _ _ Hu Hb) as Ha.
  unfold mbind, M_bind, path_exists, config_of_environ. rewrite Hb.
  cbn [negb mret M_ret]. unfold open_write.
  by rewrite write_config_file.
Qed.

(** With the base directory there and no configuration file in it,
    [read_config] adds that one file, holding the JSON text of the record
    it returns: no other entry of the filesystem is added, removed or
    changed. *)
Theorem read_config_writes_one_file w base_dir :
  dir_usable (fs w) (cwd w) base_dir = true →
  os_path_exists (fs w) (cwd w) base_dir = true →
  os_path_exists (fs w) (cwd w) (config_path base_dir) = false →
  let cfg := config_from_env (environ w) in
  (fs w) !! config_key (cwd w) base_dir = None ∧
  read_config base_dir w =
    (Ok cfg,
     set_fs w (<[config_key (cwd w) base_dir := File (json_dumps cfg)]> (fs w))).
Proof.
  intros Hu Hb Hex cfg. destruct (dir_usable_inv _ _ _ Hu) as [Hne Hp].
  pose proof (usable_exists_dir _ _ _ Hu Hb) as Ha.
  assert (fs w !! config_key (cwd w) base_dir = None) as Hk.
  { unfold os_path_exists in Hex. rewrite stat_config_file in Hex by done.
    by destruct (fs w !! _). }
  split; [done|].
  unfold read_config. fold (config_path base_dir).
  rewrite bind_run. unfold path_exists at 1. rewrite Hex.
  rewrite bind_run. cbn [mret M_ret].
  apply read_config_builds; [done..|by rewrite Hk].
Qed.

Lemma read_config_writes_one_file_witness :
  read_config CACHE cached_world =
    (Ok default_record,
     set_fs cached_world
       (<[ ["srv"; "app"; "cache"; "model_loader_config.json"] :=
             File (json_dumps default_record) ]> (fs cached_world))).
Proof.
  by destruct (read_config_writes_one_file cached_world CACHE)
    as [_ ->]; [by vm_compute..|].
Defined.

(** A configuration file whose text parses to [null] does not count: for
    every such text, [read_config] returns the record built from the
    environment and the defaults and replaces the text of the file by the
    JSON text of that record, touching nothing else. *)
Theorem read_config_null_replaced w base_dir text :
  dir_usable (fs w) (cwd w) base_dir = true →
  read_file (fs w) (cwd w) (config_path base_dir) = Ok text →
  json_loads text = Ok PNone →
  let cfg := config_from_env (environ w) in
  (fs w) !! config_key (cwd w) base_dir = Some (File text) ∧
  read_config base_dir w =
    (Ok cfg,
     set_fs w (<[config_key (cwd w) base_dir := File (json_dumps cfg)]> (fs w))).
Proof.
  intros Hu Hr Hj cfg. destruct (dir_usable_inv _ _ _ Hu) as [Hne Hp].
  assert (os_path_exists (fs w) (cwd w) (config_path base_dir) = true) as Hex.
  { unfold os_path_exists. unfold read_file in Hr. by destruct (stat _ _ _). }
  assert (os_path_exists (fs w) (cwd w) base_dir = true) as Hb.
  { unfold os_path_exists. by rewrite (config_file_in_dir _ _ _ Hne Hex). }
  pose proof (usable_exists_dir _ _ _ Hu Hb) as Ha.
  assert (fs w !! config_key (cwd w) base_dir = Some (File text)) as Hk.
  { unfold read_file in Hr. rewrite stat_config_file in Hr by done.
    destruct (fs w !! _) as [[]|]; by simplify_eq. }
  split; [done|].
  unfold read_config. fold (config_path base_dir).
  rewrite bind_run. unfold path_exists at 1. rewrite Hex.
  rewrite !bind_run. unfold open_read at 1. rewrite Hr.
  unfold lift at 1. rewrite Hj.
  apply read_config_builds; [done..|by rewrite Hk].
Qed.

Lemma read_config_null_replaced_witness :
  read_config CACHE (world_with_config " null ") =
    (Ok default_record, world_with_config (json_dumps default_record)).
Proof.
  destruct (read_config_null_replaced (world_with_config " null ") CACHE
              " null ") as [_ ->]; [by vm_compute..|].
  by vm_compute.
Defined.

(** The empty string is no base directory: with no
    [model_loader_config.json] in the working directory,
    [read_config('')] raises [FileExistsError] from the [mkdir] of
    [Path('')], and nothing is written. *)
Theorem read_config_empty_base_dir w :
  os_path_exists (fs w) (cwd w) MODEL_LOADER_CONFIG_JSON = false →
  read_config EmptyString w = (Raise FileExistsError, w).
Proof.
  intros Hex. unfold read_config.
  change (posix_join EmptyString [MODEL_LOADER_CONFIG_JSON])
    with MODEL_LOADER_CONFIG_JSON.
  rewrite bind_run. unfold path_exists at 1. rewrite Hex.
  rewrite bind_run. cbn [mret M_ret]. rewrite bind_run.
  unfold config_of_environ. rewrite bind_run. unfold path_exists at 1.
  cbn [os_path_exists stat is_ok negb]. rewrite bind_run.
  unfold Path_mkdir, mkdir_parents.
  change (Path_parts EmptyString) with (@nil string).
  cbn [rev Path_mkdir_parents os_mkdir andb]. by destruct w.
Qed.

Lemma read_config_empty_base_dir_witness :
  read_config EmptyString app_world = (Raise FileExistsError, app_world).
Proof. apply (read_config_empty_base_dir app_world). by vm_compute. Defined.

(** A [mkdir] that raises keeps what it has made: for the base directory
    [new/..] with no [new], the parent [new] is made first, then the
    [mkdir] of [new/..] raises [FileExistsError]; [read_config] ends with
    it and leaves [new] behind. *)
Lemma read_config_failed_mkdir_keeps_parent :
  stat (fs app_world) (cwd app_world) "new" = Raise FileNotFoundError ∧
  (read_config "new/.." app_world).1 = Raise FileExistsError ∧
  stat (fs (read_config "new/.." app_world).2) (cwd app_world) "new" = Ok Dir.
Proof. by vm_compute. Qed.

(** A base directory that is a regular file: [read_config] raises
    [NotADirectoryError] from the [open] for writing, and the world is as
    it was. *)
Theorem read_config_base_is_file w base_dir content :
  stat (fs w) (cwd w) base_dir = Ok (File content) →
  read_config base_dir w = (Raise NotADirectoryError, w).
Proof.
  intros Hst. assert (base_dir ≠ EmptyString) as Hb by (by intros ->).
  destruct config_name_plain as (Hn & Hs & Hd & Hdd).
  destruct (join_nonempty base_dir _ Hb Hn) as (c & s & Hcs).
  destruct (split_sep_join base_dir _ Hb Hn Hs) as (front & Hsp & Hfront).
  assert (∃ k, walk (fs w) (start (cwd w) base_dir) front = Ok k ∧
               node_at (fs w) k = Some (File content)) as (k & Hw & Hk).
  { unfold stat in Hst. destruct base_dir as [|c0 b]; [done|].
    destruct Hfront as [Hf|Hf]; rewrite Hf in Hst.
    - destruct (walk _ _ front) as [k|]; [|done]. exists k. split; [done|].
      destruct (node_at (fs w) k) as [n|]; by simplify_eq.
    - rewrite walk_app in Hst.
      destruct (walk _ _ front) as [k|]; [|done]. cbn [walk] in Hst.
      destruct (node_at (fs w) k) as [[]|] eqn:Hk; [done| |done].
      change (is_dot EmptyString) with true in Hst. cbv iota in Hst.
      rewrite Hk in Hst. by simplify_eq. }
  assert (os_path_exists (fs w) (cwd w) (config_path base_dir) = false) as Hex.
  { unfold os_path_exists, stat, config_path. rewrite Hcs, <- Hcs.
    rewrite start_join, Hsp, walk_app, Hw by done. cbn [walk].
    by rewrite Hk. }
  assert (write_file (fs w) (cwd w) (config_path base_dir)
            (json_dumps (config_from_env (environ w)))
          = Raise NotADirectoryError) as Hwr.
  { unfold write_file, config_path. rewrite Hcs, <- Hcs.
    unfold resolve_parent.
    rewrite start_join, Hsp, removelast_last, Hw by done. by rewrite Hk. }
  unfold read_config, mbind, M_bind, path_exists, config_of_environ,
    open_write, mret, M_ret.
  fold (config_path base_dir). rewrite Hex.
  unfold os_path_exists. rewrite Hst. cbn [is_ok negb fs cwd].
  by rewrite Hwr.
Qed.

Lemma read_config_base_is_file_witness :
  read_config CACHE blocked_world = (Raise NotADirectoryError, blocked_world).
Proof.
  apply (read_config_base_is_file blocked_world CACHE "x"). by vm_compute.
Defined.

(** [os.path.exists] does not tell a file from a directory: where the path
    of the configuration file names a directory, [read_config] takes the
    file to be there and raises [IsADirectoryError] on opening it; nothing
    is built and nothing is written. *)
Theorem read_config_file_is_directory w base_dir :
  stat (fs w) (cwd w) (config_path base_dir) = Ok Dir →
  read_config base_dir w = (Raise IsADirectoryError, w).
Proof.
  intros Hst. unfold read_config. fold (config_path base_dir).
  rewrite bind_run. unfold path_exists at 1, os_path_exists. rewrite Hst.
  cbn [is_ok]. rewrite !bind_run. unfold open_read at 1, read_file.
  by rewrite Hst.
Qed.

Lemma read_config_file_is_directory_witness :
  read_config CACHE dir_config_world
    = (Raise IsADirectoryError, dir_config_world).
Proof.
  apply (read_config_file_is_directory dir_config_world CACHE).
  by vm_compute.
Defined.

(** ** More of [fetch_model] *)

Lemma log_calls_app w cs cs' :
  log_calls (log_calls w cs) cs' = log_calls w (cs ++ cs').
Proof. unfold log_calls. simpl. by rewrite app_assoc. Qed.

Lemma artifact_paths_dict cfg x :
  artifact_paths cfg = Ok x → ∃ d, cfg = PDict d.
Proof. destruct cfg; try done. eauto. Qed.

Lemma py_get_field d key : py_get (PDict d) key = Ok (field (PDict d) key).
Proof. done. Qed.

Lemma workspace_of_run azure d auth w :
  workspace_of azure (PDict d) auth w =
  (Workspace_get azure (field (PDict d) "subscription")
     (field (PDict d) "resource_group") (field (PDict d) "workspace") auth,
   log_calls w [workspace_lookup (PDict d) auth]).
Proof. done. Qed.

Lemma download_model_from_workspace_run azure ws name target_dir version w :
  download_model_from_workspace azure ws name target_dir version w =
  match Model_init azure ws name version with
  | Raise e => (Raise e, log_calls w [CallModelInit ws name version])
  | Ok m =>
      let '(r, fs') :=
        Model_download azure m target_dir true (fs w) (cwd w) in
      (r, log_calls (set_fs w fs') [CallModelInit ws name version;
                                    CallModelDownload m target_dir true])
  end.
Proof.
  unfold download_model_from_workspace. rewrite bind_run.
  unfold call_out at 1. destruct (Model_init azure ws name version); [|done].
  rewrite bind_run. unfold download. cbn [fs cwd log_call].
  destruct (Model_download _ _ _ _ _ _) as [[mp|e] fs'];
    cbn [mret M_ret]; unfold log_calls, log_call, set_fs; simpl;
    by rewrite <- app_assoc.
Qed.

Lemma load_from_run azure path w :
  load_from azure path w =
  match from_pretrained azure LEDForConditionalGeneration (fs w) (cwd w) path
  with
  | Some e =>
      (Raise e,
       log_calls w [CallFromPretrained LEDForConditionalGeneration path])
  | None =>
      let w' := log_calls w [CallFromPretrained LEDForConditionalGeneration path;
                             CallFromPretrained LEDTokenizer path] in
      match from_pretrained azure LEDTokenizer (fs w) (cwd w) path with
      | Some e => (Raise e, w')
      | None => (Ok ({| model_dir := path; model_device := my_device azure |},
                     {| tokenizer_dir := path |}), w')
      end
  end.
Proof.
  unfold load_from. rewrite bind_run. unfold load_pretrained at 1, call_out.
  destruct (from_pretrained azure LEDForConditionalGeneration _ _ _); [done|].
  rewrite bind_run. unfold load_pretrained, call_out. cbn [fs cwd log_call].
  destruct (from_pretrained azure LEDTokenizer _ _ _);
    cbn [mret M_ret]; unfold log_calls, log_call; simpl;
    by rewrite <- app_assoc.
Qed.

(** [fetch_model] where the artifact is not in the cache, step by step. *)
Lemma fetch_model_miss azure cfg w cfg' w1 target_dir path :
  configuration_of cfg w = (Ok cfg', w1) →
  artifact_paths cfg' = Ok (target_dir, path) →
  os_path_exists (fs w1) (cwd w1) path = false →
  let auth := credentials_of (environ w) in
  let w2 := log_calls w1 [workspace_lookup cfg' auth] in
  fetch_model azure cfg w =
  match Workspace_get azure (field cfg' "subscription")
          (field cfg' "resource_group") (field cfg' "workspace") auth with
  | Raise e => (Raise e, w2)
  | Ok ws =>
      match download_model_from_workspace azure ws (field cfg' "model_name")
              target_dir PNone w2 with
      | (Raise e, w3) => (Raise e, w3)
      | (Ok _, w3) => load_from azure path w3
      end
  end.
Proof.
  intros Hc Hp Hex auth w2. rewrite fetch_model_unfold, Hc, Hp, Hex.
  destruct (artifact_paths_dict _ _ Hp) as [d ->].
  rewrite bind_run, workspace_of_run. fold auth. fold w2.
  destruct (Workspace_get _ _ _ _ _) as [ws|]; [|done].
  rewrite bind_run. unfold lift at 1. rewrite py_get_field.
  rewrite bind_run.
  by destruct (download_model_from_workspace _ _ _ _ _ _) as [[x|e] w3].
Qed.

(** A configuration without [model_name] is refused with [KeyError]
    before anything else happens: no call is made and the world is as it
    was. *)
Theorem fetch_model_without_name azure d w :
  assoc_get "model_name" d = None →
  fetch_model azure (PDict d) w = (Raise (KeyError "model_name"), w).
Proof.
  intros Hn. rewrite fetch_model_unfold. cbn [configuration_of mret M_ret].
  unfold artifact_paths. cbn [py_get py_getitem]. by rewrite Hn.
Qed.

Lemma fetch_model_without_name_witness :
  fetch_model answering (PDict []) app_world
    = (Raise (KeyError "model_name"), app_world).
Proof. by apply (fetch_model_without_name answering [] app_world). Defined.

(** A model name that is not a string, or a model version that is
    neither a string nor [None] (a number, say), makes [os.path.join]
    raise: [fetch_model] ends with [TypeError], no call made, the world as
    it was. *)
Theorem fetch_model_needs_strings azure cfg name version w :
  py_getitem cfg "model_name" = Ok name →
  py_get cfg "model_version" = Ok version →
  is_str name = false ∨ (version ≠ PNone ∧ is_str version = false) →
  fetch_model azure cfg w = (Raise TypeError, w).
Proof.
  intros Hn Hv Hbad. rewrite fetch_model_unfold.
  assert (configuration_of cfg w = (Ok cfg, w)) as -> by (by destruct cfg).
  unfold artifact_paths. rewrite Hv, Hn.
  destruct Hbad as [Hname|[Hnone Hver]].
  - by destruct name.
  - destruct name; try done. by destruct version.
Qed.

Lemma fetch_model_needs_strings_witness :
  fetch_model answering numbered_config app_world = (Raise TypeError, app_world).
Proof.
  apply (fetch_model_needs_strings answering numbered_config (PStr "m")
           (PInt 3) app_world); [done..|].
  right. by split.
Defined.

(** The calls [fetch_model] makes keep one order, whatever the
    configuration, the world and the answers: the workspace lookup, the
    model lookup (never at a version), the download (always with
    [exist_ok=True]), the load of the model and the load of the tokenizer
    from the same path.  A run may stop after any of them, but it skips
    none: a load comes after all three remote calls or after none of
    them. *)
Theorem fetch_model_protocol azure cfg w :
  ∃ made, calls (fetch_model azure cfg w).2 = calls w ++ made ∧
          fetch_protocol made = true.
Proof.
  assert (∀ p w2 before,
            (before = [] ∨ ∃ a b c d ws n m t,
               before = [CallWorkspaceGet a b c d; CallModelInit ws n PNone;
                         CallModelDownload m t true]) →
            ∃ loads, calls (load_from azure p w2).2 = calls w2 ++ loads ∧
                     fetch_protocol (before ++ loads) = true) as Hload.
  { intros p w2 before Hb. rewrite load_from_run.
    destruct (from_pretrained azure LEDForConditionalGeneration _ _ _).
    - eexists. split; [reflexivity|].
      by destruct Hb as [->|(a & b & c & d & ws & n & m & t & ->)].
    - destruct (from_pretrained azure LEDTokenizer _ _ _);
        (eexists; split; [reflexivity|]);
        destruct Hb as [->|(a & b & c & d & ws & n & m & t & ->)];
        simpl; by rewrite String.eqb_refl. }
  pose proof (configuration_of_calls cfg w) as Hc.
  destruct (configuration_of cfg w) as [[cfg'|e] w1] eqn:Hcfg; simpl in Hc.
  2: { rewrite fetch_model_unfold, Hcfg. exists []. by rewrite app_nil_r. }
  destruct (artifact_paths cfg') as [[t p]|] eqn:Hp.
  2: { rewrite fetch_model_unfold, Hcfg, Hp. exists [].
       by rewrite app_nil_r. }
  destruct (os_path_exists (fs w1) (cwd w1) p) eqn:Hex.
  { rewrite fetch_model_unfold, Hcfg, Hp, Hex.
    destruct (Hload p w1 []) as (loads & -> & Hl); [by left|].
    exists loads. by rewrite Hc. }
  rewrite (fetch_model_miss azure cfg w cfg' w1 t p Hcfg Hp Hex).
  destruct (Workspace_get _ _ _ _ _) as [ws|].
  2: { eexists. simpl. by rewrite Hc. }
  rewrite download_model_from_workspace_run.
  destruct (Model_init _ _ _ _) as [m|].
  2: { eexists. simpl. rewrite Hc, <- app_assoc. split; [reflexivity|done]. }
  destruct (Model_download _ _ _ _ _ _) as [[mp|e] fs'].
  2: { eexists. simpl. rewrite Hc, <- app_assoc. split; [reflexivity|done]. }
  match goal with
  | |- context [load_from azure p ?w3] =>
      destruct (Hload p w3 [workspace_lookup cfg' (credentials_of (environ w));
                            CallModelInit ws (field cfg' "model_name") PNone;
                            CallModelDownload m t true])
        as (loads & -> & Hl); [right; unfold workspace_lookup; by eauto 10|]
  end.
  eexists. split; [|exact Hl]. simpl. by rewrite Hc, <- !app_assoc.
Qed.

(** A workspace lookup that fails ends the fetch with the exception of
    the lookup: it is the only call made, nothing is asked of the
    registry, nothing is loaded, and the filesystem is as configuration
    resolution left it. *)
Theorem fetch_model_lookup_failure azure cfg w cfg' w1 target_dir path e :
  configuration_of cfg w = (Ok cfg', w1) →
  artifact_paths cfg' = Ok (target_dir, path) →
  os_path_exists (fs w1) (cwd w1) path = false →
  Workspace_get azure (field cfg' "subscription") (field cfg' "resource_group")
    (field cfg' "workspace") (credentials_of (environ w)) = Raise e →
  fetch_model azure cfg w =
    (Raise e,
     log_calls w1 [workspace_lookup cfg' (credentials_of (environ w))]).
Proof.
  intros Hc Hp Hex Hws.
  by rewrite (fetch_model_miss azure cfg w cfg' w1 _ _ Hc Hp Hex), Hws.
Qed.

Lemma fetch_model_lookup_failure_witness :
  fetch_model
    (collaborators_with (Raise (CollaboratorError "auth"))
       (Raise (CollaboratorError "model")) None None)
    (record "m" "s" "g" "w" "3") app_world =
  (Raise (CollaboratorError "auth"),
   log_calls app_world
     [CallWorkspaceGet (PStr "s") (PStr "g") (PStr "w") (credentials_of ∅)]).
Proof.
  by apply (fetch_model_lookup_failure _ (record "m" "s" "g" "w" "3") app_world
              (record "m" "s" "g" "w" "3") app_world "./cache/m/3"
              "./cache/m/3/m").
Defined.

(** A model the registry does not give (the lookup [Model(...)] raises)
    ends the fetch with that exception: no download is tried, nothing is
    loaded, and the filesystem is as configuration resolution left it. *)
Theorem fetch_model_model_failure azure cfg w cfg' w1 target_dir path ws e :
  configuration_of cfg w = (Ok cfg', w1) →
  artifact_paths cfg' = Ok (target_dir, path) →
  os_path_exists (fs w1) (cwd w1) path = false →
  Workspace_get azure (field cfg' "subscription") (field cfg' "resource_group")
    (field cfg' "workspace") (credentials_of (environ w)) = Ok ws →
  Model_init azure ws (field cfg' "model_name") PNone = Raise e →
  fetch_model azure cfg w =
    (Raise e,
     log_calls w1 [workspace_lookup cfg' (credentials_of (environ w));
                   CallModelInit ws (field cfg' "model_name") PNone]).
Proof.
  intros Hc Hp Hex Hws Hm.
  rewrite (fetch_model_miss azure cfg w cfg' w1 _ _ Hc Hp Hex), Hws.
  by rewrite download_model_from_workspace_run, Hm, log_calls_app.
Qed.

Lemma fetch_model_model_failure_witness :
  fetch_model
    (collaborators_with (Ok {| ws_name := "w" |})
       (Raise (CollaboratorError "model")) None None)
    (record "m" "s" "g" "w" "3") app_world =
  (Raise (CollaboratorError "model"),
   log_calls app_world
     [CallWorkspaceGet (PStr "s") (PStr "g") (PStr "w") (credentials_of ∅);
      CallModelInit {| ws_name := "w" |} (PStr "m") PNone]).
Proof.
  by apply (fetch_model_model_failure _ (record "m" "s" "g" "w" "3") app_world
              (record "m" "s" "g" "w" "3") app_world "./cache/m/3"
              "./cache/m/3/m").
Defined.

(** A download that fails ends the fetch with that exception, after the
    three remote calls: nothing is loaded, no second attempt is made, and
    the filesystem stays as the transfer left it (nothing is cleaned
    up). *)
Theorem fetch_model_download_failure azure cfg w cfg' w1 target_dir path ws m e
    fs' :
  configuration_of cfg w = (Ok cfg', w1) →
  artifact_paths cfg' = Ok (target_dir, path) →
  os_path_exists (fs w1) (cwd w1) path = false →
  Workspace_get azure (field cfg' "subscription") (field cfg' "resource_group")
    (field cfg' "workspace") (credentials_of (environ w)) = Ok ws →
  Model_init azure ws (field cfg' "model_name") PNone = Ok m →
  Model_download azure m target_dir true (fs w1) (cwd w1) = (Raise e, fs') →
  (fetch_model azure cfg w).1 = Raise e ∧
  fs (fetch_model azure cfg w).2 = fs' ∧
  calls (fetch_model azure cfg w).2 =
    calls w ++ [workspace_lookup cfg' (credentials_of (environ w));
                CallModelInit ws (field cfg' "model_name") PNone;
                CallModelDownload m target_dir true].
Proof.
  intros Hc Hp Hex Hws Hm Hd.
  rewrite (fetch_model_miss azure cfg w cfg' w1 _ _ Hc Hp Hex), Hws.
  rewrite download_model_from_workspace_run, Hm. cbn [fs cwd log_calls].
  rewrite Hd. split; [done|]. split; [done|]. simpl.
  pose proof (configuration_of_calls cfg w) as Hcalls.
  rewrite Hc in Hcalls. simpl in Hcalls. by rewrite Hcalls, <- app_assoc.
Qed.

Lemma fetch_model_download_failure_witness :
  (fetch_model
     (collaborators_with (Ok {| ws_name := "w" |})
        (Ok {| m_name := "m"; m_version := 7 |})
        (Some (CollaboratorError "transfer")) None)
     (record "m" "s" "g" "w" "3") app_world).1
  = Raise (CollaboratorError "transfer").
Proof.
  by apply (fetch_model_download_failure _ (record "m" "s" "g" "w" "3")
              app_world (record "m" "s" "g" "w" "3") app_world "./cache/m/3"
              "./cache/m/3/m" {| ws_name := "w" |}
              {| m_name := "m"; m_version := 7 |} _ (fs app_world)).
Defined.

(** An artifact in the cache that does not load is not fetched again:
    where the path exists and the load of the model raises, [fetch_model]
    ends with that exception after this one call; the workspace is not
    asked and the tokenizer is not loaded. *)
Theorem fetch_model_cached_load_failure azure cfg w cfg' w1 target_dir path e :
  configuration_of cfg w = (Ok cfg', w1) →
  artifact_paths cfg' = Ok (target_dir, path) →
  os_path_exists (fs w1) (cwd w1) path = true →
  from_pretrained azure LEDForConditionalGeneration (fs w1) (cwd w1) path
    = Some e →
  fetch_model azure cfg w =
    (Raise e,
     log_calls w1 [CallFromPretrained LEDForConditionalGeneration path]).
Proof.
  intros Hc Hp Hex Hl. rewrite fetch_model_unfold, Hc, Hp, Hex.
  by rewrite load_from_run, Hl.
Qed.

Lemma fetch_model_cached_load_failure_witness :
  fetch_model
    (collaborators_with (Ok {| ws_name := "w" |})
       (Ok {| m_name := "m"; m_version := 7 |}) None
       (Some (CollaboratorError "corrupt")))
    (record "m" "s" "g" "w" "3") cached_world =
  (Raise (CollaboratorError "corrupt"),
   log_calls cached_world
     [CallFromPretrained LEDForConditionalGeneration "./cache/m/3/m"]).
Proof.
  by apply (fetch_model_cached_load_failure _ (record "m" "s" "g" "w" "3")
              cached_world (record "m" "s" "g" "w" "3") cached_world
              "./cache/m/3" "./cache/m/3/m").
Defined.

(** A fetch that downloads: with the artifact not in the cache and every
    collaborator answering, [fetch_model] makes the five calls and
    returns the model, on the device of the process, and the tokenizer,
    both loaded from the artifact path.  The path the download returns
    is not used, and the artifact path is not looked for again after the
    download. *)
Theorem fetch_model_downloads azure cfg w cfg' w1 target_dir path ws m
    model_path fs' :
  configuration_of cfg w = (Ok cfg', w1) →
  artifact_paths cfg' = Ok (target_dir, path) →
  os_path_exists (fs w1) (cwd w1) path = false →
  Workspace_get azure (field cfg' "subscription") (field cfg' "resource_group")
    (field cfg' "workspace") (credentials_of (environ w)) = Ok ws →
  Model_init azure ws (field cfg' "model_name") PNone = Ok m →
  Model_download azure m target_dir true (fs w1) (cwd w1)
    = (Ok model_path, fs') →
  from_pretrained azure LEDForConditionalGeneration fs' (cwd w1) path = None →
  from_pretrained azure LEDTokenizer fs' (cwd w1) path = None →
  fetch_model azure cfg w =
    (Ok ({| model_dir := path; model_device := my_device azure |},
         {| tokenizer_dir := path |}),
     log_calls (set_fs w1 fs')
       [workspace_lookup cfg' (credentials_of (environ w));
        CallModelInit ws (field cfg' "model_name") PNone;
        CallModelDownload m target_dir true;
        CallFromPretrained LEDForConditionalGeneration path;
        CallFromPretrained LEDTokenizer path]).
Proof.
  intros Hc Hp Hex Hws Hm Hd Hl1 Hl2.
  rewrite (fetch_model_miss azure cfg w cfg' w1 _ _ Hc Hp Hex), Hws.
  rewrite download_model_from_workspace_run, Hm. cbn [fs cwd log_calls].
  rewrite Hd, load_from_run. cbn [fs cwd log_calls set_fs].
  rewrite Hl1, Hl2. unfold log_calls, set_fs. simpl.
  by rewrite <- !app_assoc.
Qed.

Lemma fetch_model_downloads_witness :
  (fetch_model answering (record "m" "s" "g" "w" "3") app_world).1 =
  Ok ({| model_dir := "./cache/m/3/m"; model_device := cpu |},
      {| tokenizer_dir := "./cache/m/3/m" |}).
Proof.
  by rewrite (fetch_model_downloads answering (record "m" "s" "g" "w" "3")
                app_world (record "m" "s" "g" "w" "3") app_world "./cache/m/3"
                "./cache/m/3/m" {| ws_name := "ecb-dev" |}
                {| m_name := "m"; m_version := 7 |} "./cache/m/3/m"
                (fs app_world)).
Defined.

(** [fetch_model()] is [fetch_model(read_config())]: called without a
    configuration it behaves, in every world, as [read_config] followed
    by [fetch_model] on what that returned. *)
Theorem fetch_model_resolves_first azure w :
  fetch_model azure PNone w = (cfg ← read_config CACHE; fetch_model azure cfg) w.
Proof.
  rewrite bind_run, fetch_model_unfold. cbn [configuration_of].
  destruct (read_config CACHE w) as [[cfg'|e] w1] eqn:Hrc; [|done].
  rewrite fetch_model_unfold.
  assert (configuration_of cfg' w1 = (Ok cfg', w1)) as ->.
  { pose proof (read_config_not_none _ _ _ _ Hrc). by destruct cfg'. }
  destruct (read_config_frame CACHE w) as (_ & _ & Henv).
  rewrite Hrc in Henv. simpl in Henv. by rewrite Henv.
Qed.

(** A configuration file that holds JSON other than an object (and other
    than [null]) is returned as it is by [read_config], and both
    [fetch_model()] and [load_model_names()] then end with
    [AttributeError] on its [get], before any call and with the world as
    it was. *)
Theorem config_not_an_object azure w text cfg :
  read_file (fs w) (cwd w) (config_path CACHE) = Ok text →
  json_loads text = Ok cfg →
  cfg ≠ PNone →
  is_dict cfg = false →
  fetch_model azure PNone w = (Raise AttributeError, w) ∧
  load_model_names azure w = (Raise AttributeError, w).
Proof.
  intros Hr Hj Hn Hd.
  pose proof (read_config_file w CACHE text cfg Hr Hj Hn) as Hrc. split.
  - rewrite fetch_model_unfold. cbn [configuration_of]. rewrite Hrc.
    by destruct cfg.
  - unfold load_model_names. rewrite bind_run, Hrc.
    rewrite bind_run, build_service_principal_run. rewrite bind_run.
    unfold workspace_of. rewrite bind_run. unfold lift at 1.
    by destruct cfg.
Qed.

Lemma config_not_an_object_witness :
  fetch_model answering PNone (world_with_config "[1, 2]")
    = (Raise AttributeError, world_with_config "[1, 2]") ∧
  load_model_names answering (world_with_config "[1, 2]")
    = (Raise AttributeError, world_with_config "[1, 2]").
Proof.
  by apply (config_not_an_object answering (world_with_config "[1, 2]")
              "[1, 2]" (PList [PInt 1; PInt 2])).
Defined.

(** ** More of [load_model_names] *)

Lemma pretty_N_go_no_colon (x : N) (s : string) :
  no_colon s = true → no_colon (pretty_N_go x s) = true.
Proof.
  revert s. induction (N.lt_wf_0 x) as [x _ IH]; intros s Hs.
  assert (x = 0 ∨ 0 < x)%N as [->|Hx] by lia.
  - by rewrite pretty_N_go_0.
  - rewrite pretty_N_go_step by done. apply IH.
    { by apply N.div_lt. }
    simpl. rewrite Hs. unfold pretty_N_char. by repeat case_match.
Qed.

Lemma pretty_Z_no_colon (z : Z) : no_colon (pretty z) = true.
Proof.
  assert (∀ p : positive, no_colon (pretty p) = true) as Hp.
  { intros p. unfold pretty, pretty_positive, pretty, pretty_N.
    case_decide; [done|]. by apply pretty_N_go_no_colon. }
  destruct z as [|p|p]; [done|apply Hp|].
  change (pretty (Z.neg p)) with ("-" +:+ pretty p). simpl. apply Hp.
Qed.

Lemma no_colon_label (a v : string) :
  no_colon (a +:+ String ":"%char (String ":"%char v)) = false.
Proof.
  induction a as [|c a IH]; [done|]. simpl. rewrite IH.
  by destruct (ord c =? 58).
Qed.

(** The text after the last colon settles the split. *)
Lemma label_split (a b v v' : string) :
  no_colon v = true → no_colon v' = true →
  a +:+ String ":"%char (String ":"%char v)
    = b +:+ String ":"%char (String ":"%char v') →
  a = b ∧ v = v'.
Proof.
  intros Hv Hv'. revert b. induction a as [|c a IH]; intros [|c' b]; simpl.
  - by intros [= ->].
  - intros [= <- H]. exfalso. destruct b as [|c'' b]; simpl in H.
    + injection H as H. rewrite H in Hv. simpl in Hv. done.
    + injection H as _ H. rewrite H, no_colon_label in Hv. done.
  - intros [= -> H]. exfalso. destruct a as [|c'' a]; simpl in H.
    + injection H as H. rewrite <- H in Hv'. simpl in Hv'. done.
    + injection H as _ H. rewrite <- H, no_colon_label in Hv'. done.
  - intros [= -> H]. by destruct (IH _ H) as [-> ->].
Qed.

(** An entry of the listing names one model: two registered models with
    the same entry [name::version] have the same name and the same
    version, whatever characters the names are made of. *)
Theorem model_label_inj (m1 m2 : aml_model) :
  model_label m1 = model_label m2 → m1 = m2.
Proof.
  destruct m1 as [n1 v1], m2 as [n2 v2]. unfold model_label. simpl.
  intros H. apply label_split in H as [-> Hv]; [|apply pretty_Z_no_colon..].
  by apply (inj pretty) in Hv as ->.
Qed.

Lemma model_label_inj_witness :
  {| m_name := "a::1"; m_version := 2 |} = {| m_name := "a::1"; m_version := 2 |}.
Proof. by apply model_label_inj. Defined.

(** [load_model_names] makes at most two calls, the workspace lookup and
    then the listing, whatever the world and the answers: it looks no
    model up, downloads nothing and loads nothing, and it does not list
    when the lookup has failed. *)
Theorem load_model_names_protocol azure w :
  ∃ made, calls (load_model_names azure w).2 = calls w ++ made ∧
          listing_protocol made = true.
Proof.
  unfold load_model_names. rewrite bind_run.
  destruct (read_config_frame CACHE w) as (Hc & _ & _).
  destruct (read_config CACHE w) as [[cfg|e] w1]; simpl in Hc.
  2: { exists []. by rewrite app_nil_r. }
  rewrite bind_run, build_service_principal_run, bind_run.
  destruct cfg; try (exists []; by rewrite app_nil_r).
  rewrite workspace_of_run.
  destruct (Workspace_get _ _ _ _ _) as [ws|].
  2: { eexists. simpl. by rewrite Hc. }
  rewrite bind_run. unfold call_out.
  destruct (Model_list azure ws) as [models|]; eexists; simpl;
    rewrite Hc, <- app_assoc; (split; [reflexivity|done]).
Qed.

(** The listing: where the resolved configuration is a dict, the
    workspace is looked up with what [get] gives for [subscription],
    [resource_group] and [workspace] ([None] for a key that is not
    there) and with the credentials of the environment; the result has
    one entry [name::version] for each model the workspace lists, in the
    order listed. *)
Theorem load_model_names_lists azure w d w1 ws models :
  read_config CACHE w = (Ok (PDict d), w1) →
  Workspace_get azure (field (PDict d) "subscription")
    (field (PDict d) "resource_group") (field (PDict d) "workspace")
    (credentials_of (environ w)) = Ok ws →
  Model_list azure ws = Ok models →
  load_model_names azure w =
    (Ok (map model_label models),
     log_calls w1 [workspace_lookup (PDict d) (credentials_of (environ w));
                   CallModelList ws]).
Proof.
  intros Hrc Hws Hl. unfold load_model_names. rewrite bind_run, Hrc.
  destruct (read_config_frame CACHE w) as (_ & _ & Henv).
  rewrite Hrc in Henv. simpl in Henv.
  rewrite bind_run, build_service_principal_run, bind_run.
  rewrite workspace_of_run, Henv, Hws. rewrite bind_run. unfold call_out.
  rewrite Hl. cbn [mret M_ret]. unfold log_call, log_calls. simpl.
  by rewrite <- app_assoc.
Qed.

Lemma load_model_names_lists_witness :
  (load_model_names answering (world_with_config "{}")).1
    = Ok ["led-large-16384-arxiv::7"] ∧
  calls (load_model_names answering (world_with_config "{}")).2
    = [CallWorkspaceGet PNone PNone PNone (credentials_of ∅);
       CallModelList {| ws_name := "ecb-dev" |}].
Proof.
  by rewrite (load_model_names_lists answering (world_with_config "{}") []
                (world_with_config "{}") {| ws_name := "ecb-dev" |}
                [ {| m_name := "led-large-16384-arxiv"; m_version := 7 |} ]).
Defined.

(** ** Writing, then reading *)

Lemma walk_insert_file (fs : fsmap) key content cur cs k :
  fs !! key ≠ Some Dir → key ≠ [] →
  walk fs cur cs = Ok k →
  walk (<[key := File content]> fs) cur cs = Ok k.
Proof.
  intros Hk Hne. revert cur. induction cs as [|c cs IH]; intros cur; [done|].
  simpl. destruct (node_at fs cur) as [[]|] eqn:Hn; [done| |done].
  assert (node_at (<[key := File content]> fs) cur = Some Dir) as ->.
  { pose proof (is_dir_insert_file fs key content cur Hk Hne) as H.
    unfold is_dir in H. rewrite Hn in H. specialize (H eq_refl).
    by destruct (node_at (<[key := File content]> fs) cur) as [[]|]. }
  destruct (is_dot c); [apply IH|]. destruct (is_dotdot c); apply IH.
Qed.

(** What [open(p, 'w')] has written, [open(p, 'r')] reads. *)
Lemma write_then_read fs cwd' p content fs2 :
  write_file fs cwd' p content = Ok fs2 →
  read_file fs2 cwd' p = Ok content.
Proof.
  unfold write_file, read_file, stat. destruct p as [|c0 p0]; [done|].
  set (p := String c0 p0). unfold resolve_parent.
  destruct (split_sep_cons p) as (x & xs & Hsp). rewrite Hsp.
  assert (x :: xs ≠ []) as Hne by done.
  destruct (walk fs (start cwd' p) (removelast (x :: xs))) as [k|] eqn:Hw;
    [|done].
  destruct (node_at fs k) as [[]|] eqn:Hk; [done| |done].
  set (name := List.last (x :: xs) EmptyString).
  destruct (is_dot name) eqn:Hd; [done|].
  destruct (is_dotdot name) eqn:Hdd; [done|]. cbn [orb].
  assert (fs !! (k ++ [name]) ≠ Some Dir →
          match
            match walk (<[k ++ [name] := File content]> fs) (start cwd' p)
                    (x :: xs) with
            | Ok k' =>
                match node_at (<[k ++ [name] := File content]> fs) k' with
                | Some n => Ok n
                | None => Raise FileNotFoundError
                end
            | Raise e => Raise e
            end
          with
          | Ok (File content') => Ok content'
          | Ok Dir => Raise IsADirectoryError
          | Raise e => Raise e
          end = Ok content) as Hread.
  { intros Hf. assert (k ++ [name] ≠ []) as Hkn by (by destruct k).
    rewrite (app_removelast_last EmptyString Hne) at 1. fold name.
    rewrite walk_app, (walk_insert_file fs _ content _ _ k Hf Hkn Hw).
    cbn [walk].
    assert (node_at (<[k ++ [name] := File content]> fs) k = Some Dir) as ->.
    { pose proof (is_dir_insert_file fs (k ++ [name]) content k Hf Hkn) as H.
      unfold is_dir in H. rewrite Hk in H. specialize (H eq_refl).
      by destruct (node_at (<[k ++ [name] := File content]> fs) k)
        as [[]|]. }
    rewrite Hd, Hdd, node_at_lookup. by rewrite lookup_insert_eq. }
  destruct (fs !! (k ++ [name])) as [[]|] eqn:Hf; intros [= <-];
    by apply Hread.
Qed.

(** ** [read_config], again *)

(** Whenever [read_config] returns, the configuration file is there and
    its text parses to the value returned, and a second call returns
    that value again and changes nothing: this without any condition on
    the base directory or on the environment. *)
Theorem read_config_settles base_dir w cfg w1 :
  read_config base_dir w = (Ok cfg, w1) →
  (∃ text, read_file (fs w1) (cwd w1) (config_path base_dir) = Ok text ∧
           json_loads text = Ok cfg) ∧
  read_config base_dir w1 = (Ok cfg, w1).
Proof.
  intros Hrc.
  assert (∃ text, read_file (fs w1) (cwd w1) (config_path base_dir) = Ok text ∧
                  json_loads text = Ok cfg) as (text & Hr & Hj).
  { revert Hrc.
    unfold read_config, mbind, M_bind, path_exists, open_read, lift,
      config_of_environ, Path_mkdir, open_write, mret, M_ret.
    fold (config_path base_dir).
    assert (∀ fs1 fs2,
      write_file fs1 (cwd w) (config_path base_dir)
        (json_dumps (config_from_env (environ w))) = Ok fs2 →
      ∃ text, read_file fs2 (cwd w) (config_path base_dir) = Ok text ∧
              json_loads text = Ok (config_from_env (environ w))) as Hwrite.
    { intros fs1 fs2 Hw. eexists. split; [by eapply write_then_read|].
      apply json_loads_dumps_record. }
    destruct (os_path_exists (fs w) (cwd w) _).
    - destruct (read_file _ _ _) as [text|] eqn:Hr; [|done].
      destruct (json_loads text) as [[]|] eqn:Hj;
        try (intros [= <- <-]; by eauto).
      destruct (negb _); cbn [fs cwd set_fs].
      + destruct (mkdir_parents _ _ _) as [[[]|e] fs1]; [|done].
        cbn [fs cwd set_fs].
        destruct (write_file _ _ _ _) eqn:Hw; [|done].
        intros [= <- <-]. by eapply Hwrite.
      + destruct (write_file _ _ _ _) eqn:Hw; [|done].
        intros [= <- <-]. by eapply Hwrite.
    - destruct (negb _); cbn [fs cwd set_fs].
      + destruct (mkdir_parents _ _ _) as [[[]|e] fs1]; [|done].
        cbn [fs cwd set_fs].
        destruct (write_file _ _ _ _) eqn:Hw; [|done].
        intros [= <- <-]. by eapply Hwrite.
      + destruct (write_file _ _ _ _) eqn:Hw; [|done].
        intros [= <- <-]. by eapply Hwrite. }
  split; [by eauto|].
  apply (read_config_file w1 base_dir text cfg Hr Hj).
  by eapply read_config_not_none.
Qed.

Lemma read_config_settles_witness :
  read_config CACHE (set_fs foo_world
                       (fs (read_config CACHE foo_world).2)) =
  (Ok (record "foo" default_subscription default_resource_group
         default_ml_workspace default_model_version),
   set_fs foo_world (fs (read_config CACHE foo_world).2)).
Proof.
  by apply (read_config_settles CACHE foo_world).
Defined.

(** ** [fetch_model], twice *)

(** The cache works when the download puts the artifact where
    [fetch_model] looks: after a fetch that has downloaded, with the
    artifact path existing in the filesystem the download left, a second
    fetch with the same configuration asks nothing of the workspace and
    only loads. *)
Theorem fetch_model_then_cached azure cfg w target_dir path ws m model_path fs' :
  cfg ≠ PNone →
  artifact_paths cfg = Ok (target_dir, path) →
  os_path_exists (fs w) (cwd w) path = false →
  Workspace_get azure (field cfg "subscription") (field cfg "resource_group")
    (field cfg "workspace") (credentials_of (environ w)) = Ok ws →
  Model_init azure ws (field cfg "model_name") PNone = Ok m →
  Model_download azure m target_dir true (fs w) (cwd w) = (Ok model_path, fs') →
  os_path_exists fs' (cwd w) path = true →
  let w' := (fetch_model azure cfg w).2 in
  fs w' = fs' ∧
  ∃ loads, calls (fetch_model azure cfg w').2 = calls w' ++ loads ∧
           forallb is_local loads = true.
Proof.
  intros Hcfg Hp Hex Hws Hm Hd Hex' w'.
  assert (∀ w0, configuration_of cfg w0 = (Ok cfg, w0)) as Hc
    by (intros w0; by destruct cfg).
  assert (fs w' = fs' ∧ cwd w' = cwd w) as [Hfs Hcwd].
  { unfold w'.
    rewrite (fetch_model_miss azure cfg w cfg w _ _ (Hc w) Hp Hex), Hws.
    rewrite download_model_from_workspace_run, Hm. cbn [fs cwd log_calls].
    rewrite Hd, load_from_run.
    destruct (from_pretrained azure LEDForConditionalGeneration _ _ _);
      [done|].
    by destruct (from_pretrained azure LEDTokenizer _ _ _). }
  split; [done|].
  rewrite fetch_model_unfold, Hc, Hp, Hfs, Hcwd, Hex'.
  destruct (load_calls azure path w') as (loads & -> & [rest Hrest] & _).
  exists loads. split; [done|].
  destruct loads as [|c1 [|c2 [|c3 loads]]]; by simplify_eq/=.
Qed.

Lemma fetch_model_then_cached_witness :
  let w' := (fetch_model storing (record "m" "s" "g" "w" "3") app_world).2 in
  fs w' = fs cached_world ∧
  ∃ loads, calls (fetch_model storing (record "m" "s" "g" "w" "3") w').2
             = calls w' ++ loads ∧
           forallb is_local loads = true.
Proof.
  apply (fetch_model_then_cached storing (record "m" "s" "g" "w" "3")
           app_world "./cache/m/3" "./cache/m/3/m"
           {| ws_name := "ecb-dev" |} {| m_name := "m"; m_version := 7 |}
           "./cache/m/3/m" (fs cached_world));
    [by vm_compute..|reflexivity|by vm_compute].
Defined.
